(** * The AST node classes of ast.py: a shallow embedding

    The Python module defines a base class [Node] with a generic
    [__repr__] and [show], a [Coord] class, and thirty-one concrete node
    classes, each with [__slots__], [__init__], [children], [__iter__]
    and [attr_names].  Python values are dynamically typed, so every
    field holds a [pyval]; operations that can raise return a [result].

    The embedding follows the code of the module.  The limits of the
    interpreter are not part of it: integers print at any size,
    recursion has no depth limit, strings are sequences of bytes, and
    the only exceptions are the three the module itself can cause. *)

From Stdlib Require Import String Ascii List ZArith Lia Bool DecimalString.
Import ListNotations.
Local Open Scope list_scope.
Local Open Scope string_scope.
#[local] Set Warnings "-register-all".

(** ** Exceptions and the error monad *)

Inductive exn : Type := AttributeError | TypeError | NameError.

Inductive result (A : Type) : Type :=
| Ok (a : A)
| Raise (e : exn).
Arguments Ok {A} a.
Arguments Raise {A} e.

Definition bind {A B} (c : result A) (k : A -> result B) : result B :=
  match c with
  | Ok a => k a
  | Raise e => Raise e
  end.

Notation "x <- c ;; k" := (bind c (fun x => k))
  (at level 61, c at next level, right associativity).

Definition fmap {A B} (f : A -> B) (c : result A) : result B :=
  x <- c ;; Ok (f x).

Definition mapM {A B} (f : A -> result B) : list A -> result (list B) :=
  fix go (l : list A) : result (list B) :=
    match l with
    | [] => Ok []
    | a :: t => b <- f a ;; bs <- go t ;; Ok (b :: bs)
    end.

(** ** Python values and node objects

    [pyval] covers the values the classes handle: [None], integers,
    strings, lists, [Coord] objects and node objects.  A node object
    carries one value per slot, in [__slots__] order. *)

Inductive pyval : Type :=
| VNone
| VInt (z : Z)
| VStr (s : string)
| VList (l : list pyval)
| Coord (line column : pyval)
| VNode (n : node)
with node : Type :=
| Program (gdecls symtab coord : pyval)
| Constant (type value coord rawtype gen_location : pyval)
| Cast (cast expression coord type gen_location : pyval)
| Type_ (names coord : pyval)
| GlobalDecl (decls coord : pyval)
| FuncDecl (params type coord gen_location : pyval)
| FuncDef (spec decl param_decls body coord decls : pyval)
| FuncCall (name params coord type gen_location : pyval)
| VarDecl (declname type coord gen_location : pyval)
| Decl (name type init coord : pyval)
| PtrDecl (type coord : pyval)
| ArrayRef (name subscript coord bind type model gen_location : pyval)
| ArrayDecl (type tam coord : pyval)
| DeclList (decls coord : pyval)
| InitList (expression coord value gen_location : pyval)
| ExprList (expression coord : pyval)
| ParamList (params coord : pyval)
| UnaryOp (op expression coord gen_location type : pyval)
| BinaryOp (op left_val right_val coord type gen_location : pyval)
| Assignment (op value1 value2 coord : pyval)
| Compound (block_items coord : pyval)
| EmptyStatement (coord : pyval)
| Break (coord : pyval)
| Assert (expression coord : pyval)
| For (initial cond next statement coord label_exit : pyval)
| While (cond statement coord label_exit : pyval)
| Return (expression coord : pyval)
| ID (name coord type bind scope gen_location model : pyval)
| Print (expression coord : pyval)
| Read (expression coord : pyval)
| If (cond true_ false_ coord : pyval).

(** The classes themselves, for class attributes and constructor calls. *)
Inductive kind : Type :=
| KProgram | KConstant | KCast | KType | KGlobalDecl | KFuncDecl | KFuncDef
| KFuncCall | KVarDecl | KDecl | KPtrDecl | KArrayRef | KArrayDecl
| KDeclList | KInitList | KExprList | KParamList | KUnaryOp | KBinaryOp
| KAssignment | KCompound | KEmptyStatement | KBreak | KAssert | KFor
| KWhile | KReturn | KID | KPrint | KRead | KIf.

Definition kind_of (n : node) : kind :=
  match n with
  | Program _ _ _ => KProgram
  | Constant _ _ _ _ _ => KConstant
  | Cast _ _ _ _ _ => KCast
  | Type_ _ _ => KType
  | GlobalDecl _ _ => KGlobalDecl
  | FuncDecl _ _ _ _ => KFuncDecl
  | FuncDef _ _ _ _ _ _ => KFuncDef
  | FuncCall _ _ _ _ _ => KFuncCall
  | VarDecl _ _ _ _ => KVarDecl
  | Decl _ _ _ _ => KDecl
  | PtrDecl _ _ => KPtrDecl
  | ArrayRef _ _ _ _ _ _ _ => KArrayRef
  | ArrayDecl _ _ _ => KArrayDecl
  | DeclList _ _ => KDeclList
  | InitList _ _ _ _ => KInitList
  | ExprList _ _ => KExprList
  | ParamList _ _ => KParamList
  | UnaryOp _ _ _ _ _ => KUnaryOp
  | BinaryOp _ _ _ _ _ _ => KBinaryOp
  | Assignment _ _ _ _ => KAssignment
  | Compound _ _ => KCompound
  | EmptyStatement _ => KEmptyStatement
  | Break _ => KBreak
  | Assert _ _ => KAssert
  | For _ _ _ _ _ _ => KFor
  | While _ _ _ _ => KWhile
  | Return _ _ => KReturn
  | ID _ _ _ _ _ _ _ => KID
  | Print _ _ => KPrint
  | Read _ _ => KRead
  | If _ _ _ _ => KIf
  end.

(** [self.__class__.__name__] *)
Definition class_name (k : kind) : string :=
  match k with
  | KProgram => "Program" | KConstant => "Constant" | KCast => "Cast"
  | KType => "Type" | KGlobalDecl => "GlobalDecl" | KFuncDecl => "FuncDecl"
  | KFuncDef => "FuncDef" | KFuncCall => "FuncCall" | KVarDecl => "VarDecl"
  | KDecl => "Decl" | KPtrDecl => "PtrDecl" | KArrayRef => "ArrayRef"
  | KArrayDecl => "ArrayDecl" | KDeclList => "DeclList"
  | KInitList => "InitList" | KExprList => "ExprList"
  | KParamList => "ParamList" | KUnaryOp => "UnaryOp"
  | KBinaryOp => "BinaryOp" | KAssignment => "Assignment"
  | KCompound => "Compound" | KEmptyStatement => "EmptyStatement"
  | KBreak => "Break" | KAssert => "Assert" | KFor => "For"
  | KWhile => "While" | KReturn => "Return" | KID => "ID"
  | KPrint => "Print" | KRead => "Read" | KIf => "If"
  end.

(** The class attribute [__slots__].  Most classes assign a tuple of
    names; [EmptyStatement] and [Break] assign the parenthesised string
    [("coord")], which is the plain string ["coord"]: Python reserves
    one slot named [coord], but [self.__slots__] is that string. *)
Inductive slots_decl : Type :=
| SlotTuple (names : list string)
| SlotString (s : string).

Definition slots (k : kind) : slots_decl :=
  match k with
  | KProgram => SlotTuple ["gdecls"; "symtab"; "coord"]
  | KConstant => SlotTuple ["type"; "value"; "coord"; "rawtype"; "gen_location"]
  | KCast => SlotTuple ["cast"; "expression"; "coord"; "type"; "gen_location"]
  | KType => SlotTuple ["names"; "coord"]
  | KGlobalDecl => SlotTuple ["decls"; "coord"]
  | KFuncDecl => SlotTuple ["params"; "type"; "coord"; "gen_location"]
  | KFuncDef => SlotTuple ["spec"; "decl"; "param_decls"; "body"; "coord"; "decls"]
  | KFuncCall => SlotTuple ["name"; "params"; "coord"; "type"; "gen_location"]
  | KVarDecl => SlotTuple ["declname"; "type"; "coord"; "gen_location"]
  | KDecl => SlotTuple ["name"; "type"; "init"; "coord"]
  | KPtrDecl => SlotTuple ["type"; "coord"]
  | KArrayRef => SlotTuple ["name"; "subscript"; "coord"; "bind"; "type"; "model"; "gen_location"]
  | KArrayDecl => SlotTuple ["type"; "tam"; "coord"]
  | KDeclList => SlotTuple ["decls"; "coord"]
  | KInitList => SlotTuple ["expression"; "coord"; "value"; "gen_location"]
  | KExprList => SlotTuple ["expression"; "coord"]
  | KParamList => SlotTuple ["params"; "coord"]
  | KUnaryOp => SlotTuple ["op"; "expression"; "coord"; "gen_location"; "type"]
  | KBinaryOp => SlotTuple ["op"; "left_val"; "right_val"; "coord"; "type"; "gen_location"]
  | KAssignment => SlotTuple ["op"; "value1"; "value2"; "coord"]
  | KCompound => SlotTuple ["block_items"; "coord"]
  | KEmptyStatement => SlotString "coord"
  | KBreak => SlotString "coord"
  | KAssert => SlotTuple ["expression"; "coord"]
  | KFor => SlotTuple ["initial"; "cond"; "next"; "statement"; "coord"; "label_exit"]
  | KWhile => SlotTuple ["cond"; "statement"; "coord"; "label_exit"]
  | KReturn => SlotTuple ["expression"; "coord"]
  | KID => SlotTuple ["name"; "coord"; "type"; "bind"; "scope"; "gen_location"; "model"]
  | KPrint => SlotTuple ["expression"; "coord"]
  | KRead => SlotTuple ["expression"; "coord"]
  | KIf => SlotTuple ["cond"; "true"; "false"; "coord"]
  end.

(** The names of the slots Python reserves for instances of the class. *)
Definition slot_names (k : kind) : list string :=
  match slots k with
  | SlotTuple l => l
  | SlotString s => [s]
  end.

(** The class attribute [attr_names]. *)
Definition attr_names (k : kind) : list string :=
  match k with
  | KConstant => ["type"; "value"]
  | KType => ["names"]
  | KDecl => ["name"]
  | KUnaryOp => ["op"]
  | KBinaryOp => ["op"]
  | KAssignment => ["op"]
  | KID => ["name"]
  | _ => []
  end.

(** ** Attribute storage *)

(** The slot values of a node, each passed through [f], in slot order. *)
Definition fields_with {A} (f : pyval -> A) (n : node) : list (string * A) :=
  match n with
  | Program g s c => [("gdecls", f g); ("symtab", f s); ("coord", f c)]
  | Constant t v c r g =>
      [("type", f t); ("value", f v); ("coord", f c); ("rawtype", f r);
       ("gen_location", f g)]
  | Cast ca e c t g =>
      [("cast", f ca); ("expression", f e); ("coord", f c); ("type", f t);
       ("gen_location", f g)]
  | Type_ ns c => [("names", f ns); ("coord", f c)]
  | GlobalDecl d c => [("decls", f d); ("coord", f c)]
  | FuncDecl p t c g =>
      [("params", f p); ("type", f t); ("coord", f c); ("gen_location", f g)]
  | FuncDef s d p b c ds =>
      [("spec", f s); ("decl", f d); ("param_decls", f p); ("body", f b);
       ("coord", f c); ("decls", f ds)]
  | FuncCall nm p c t g =>
      [("name", f nm); ("params", f p); ("coord", f c); ("type", f t);
       ("gen_location", f g)]
  | VarDecl dn t c g =>
      [("declname", f dn); ("type", f t); ("coord", f c); ("gen_location", f g)]
  | Decl nm t i c => [("name", f nm); ("type", f t); ("init", f i); ("coord", f c)]
  | PtrDecl t c => [("type", f t); ("coord", f c)]
  | ArrayRef nm s c b t m g =>
      [("name", f nm); ("subscript", f s); ("coord", f c); ("bind", f b);
       ("type", f t); ("model", f m); ("gen_location", f g)]
  | ArrayDecl t tam c => [("type", f t); ("tam", f tam); ("coord", f c)]
  | DeclList d c => [("decls", f d); ("coord", f c)]
  | InitList e c v g =>
      [("expression", f e); ("coord", f c); ("value", f v); ("gen_location", f g)]
  | ExprList e c => [("expression", f e); ("coord", f c)]
  | ParamList p c => [("params", f p); ("coord", f c)]
  | UnaryOp o e c g t =>
      [("op", f o); ("expression", f e); ("coord", f c); ("gen_location", f g);
       ("type", f t)]
  | BinaryOp o l r c t g =>
      [("op", f o); ("left_val", f l); ("right_val", f r); ("coord", f c);
       ("type", f t); ("gen_location", f g)]
  | Assignment o a b c =>
      [("op", f o); ("value1", f a); ("value2", f b); ("coord", f c)]
  | Compound b c => [("block_items", f b); ("coord", f c)]
  | EmptyStatement c => [("coord", f c)]
  | Break c => [("coord", f c)]
  | Assert e c => [("expression", f e); ("coord", f c)]
  | For i cd nx s c l =>
      [("initial", f i); ("cond", f cd); ("next", f nx); ("statement", f s);
       ("coord", f c); ("label_exit", f l)]
  | While cd s c l =>
      [("cond", f cd); ("statement", f s); ("coord", f c); ("label_exit", f l)]
  | Return e c => [("expression", f e); ("coord", f c)]
  | ID nm c t b sc g m =>
      [("name", f nm); ("coord", f c); ("type", f t); ("bind", f b);
       ("scope", f sc); ("gen_location", f g); ("model", f m)]
  | Print e c => [("expression", f e); ("coord", f c)]
  | Read e c => [("expression", f e); ("coord", f c)]
  | If cd t e c => [("cond", f cd); ("true", f t); ("false", f e); ("coord", f c)]
  end.

Definition fields (n : node) : list (string * pyval) :=
  fields_with (fun v => v) n.

Fixpoint assoc {A} (x : string) (l : list (string * A)) : option A :=
  match l with
  | [] => None
  | (y, a) :: t => if String.eqb x y then Some a else assoc x t
  end.

(** [getattr(self, name)] for an instance attribute.  The names looked
    up by the module are slot names or single letters, never a method or
    class attribute, so a name that is not a slot raises. *)
Definition getattr (n : node) (name : string) : result pyval :=
  match assoc name (fields n) with
  | Some v => Ok v
  | None => Raise AttributeError
  end.

(** ** Strings as Python uses them *)

Definition nl : string := String (ascii_of_nat 10) EmptyString.
Definition colon : ascii := ascii_of_nat 58.

(** [' ' * n] *)
Fixpoint spaces (n : nat) : string :=
  match n with
  | O => EmptyString
  | S m => String " "%char (spaces m)
  end.

(** [s.split(sep)] for a one-character separator: never empty. *)
Fixpoint split_on (sep : ascii) (s : string) : list string :=
  match s with
  | EmptyString => [EmptyString]
  | String a t =>
      if Ascii.eqb a sep then EmptyString :: split_on sep t
      else match split_on sep t with
           | h :: r => String a h :: r
           | [] => [String a EmptyString]
           end
  end.

(** [s.replace(c, by)] for a one-character pattern. *)
Fixpoint replace_char (c : ascii) (by_ : string) (s : string) : string :=
  match s with
  | EmptyString => EmptyString
  | String a t =>
      if Ascii.eqb a c then by_ ++ replace_char c by_ t
      else String a (replace_char c by_ t)
  end.

(** [s.replace('\n', by)] *)
Definition replace_nl (by_ : string) (s : string) : string :=
  replace_char (ascii_of_nat 10) by_ s.

(** ["%d" % i] and [str(z)] *)
Definition str_of_nat (i : nat) : string :=
  NilZero.string_of_uint (Nat.to_uint i).
Definition str_of_Z (z : Z) : string :=
  NilZero.string_of_int (Z.to_int z).

(** The characters of a string, as Python iterates it. *)
Fixpoint chars (s : string) : list string :=
  match s with
  | EmptyString => []
  | String a t => String a EmptyString :: chars t
  end.

(** ** Constructor calls

    A call [K(a1, ..., an, k1=v1, ...)] binds the arguments to the
    parameters of [K.__init__] the way Python does: positional arguments
    fill the parameters from the left, keyword arguments by name, the
    remaining parameters take their default, and any mismatch raises
    [TypeError]. *)

Definition params := list (string * option pyval).

Definition required (x : string) : string * option pyval := (x, None).
Definition optional (x : string) (d : pyval) : string * option pyval :=
  (x, Some d).

(** The parameter list of each [__init__], without [self]. *)
Definition init_params (k : kind) : params :=
  match k with
  | KProgram => [required "gdecls"; optional "symtab" VNone; optional "coord" VNone]
  | KConstant => [required "type"; required "value"; optional "coord" VNone]
  | KCast => [required "cast"; required "expression"; optional "coord" VNone]
  | KType => [required "names"; optional "coord" VNone]
  | KGlobalDecl => [required "decls"; optional "coord" VNone]
  | KFuncDecl => [required "params"; required "type"; optional "coord" VNone]
  | KFuncDef =>
      [required "spec"; required "decl"; required "param_decls";
       required "body"; optional "coord" VNone]
  | KFuncCall => [required "name"; required "params"; optional "coord" VNone]
  | KVarDecl => [required "declname"; required "type"; optional "coord" VNone]
  | KDecl =>
      [required "name"; required "type"; required "init"; optional "coord" VNone]
  | KPtrDecl => [required "type"; optional "coord" VNone]
  | KArrayRef => [required "name"; required "subscript"; optional "coord" VNone]
  | KArrayDecl => [required "type"; required "tam"; optional "coord" VNone]
  | KDeclList => [required "decls"; optional "coord" VNone]
  | KInitList => [required "expression"; optional "coord" VNone]
  | KExprList => [required "expression"; optional "coord" VNone]
  | KParamList => [required "params"; optional "coord" VNone]
  | KUnaryOp => [required "op"; required "expression"; optional "coord" VNone]
  | KBinaryOp =>
      [required "op"; required "left_val"; required "right_val";
       optional "coord" VNone]
  | KAssignment =>
      [required "op"; required "value1"; required "value2";
       optional "coord" VNone]
  | KCompound => [required "block_items"; optional "coord" VNone]
  | KEmptyStatement => [optional "coord" VNone]
  | KBreak => [optional "coord" VNone]
  | KAssert => [required "expression"; optional "coord" VNone]
  | KFor =>
      [required "initial"; required "cond"; required "next";
       required "statement"; optional "coord" VNone]
  | KWhile => [required "cond"; required "statement"; required "coord"]
  | KReturn => [required "expression"; optional "coord" VNone]
  | KID => [required "name"; optional "coord" VNone]
  | KPrint => [required "expression"; optional "coord" VNone]
  | KRead => [required "expression"; optional "coord" VNone]
  | KIf =>
      [required "cond"; required "true"; required "false";
       optional "coord" VNone]
  end.

Definition kwargs := list (string * pyval).

Definition drop_key (x : string) (kw : kwargs) : kwargs :=
  filter (fun p => negb (String.eqb x (fst p))) kw.

Fixpoint bind_args (ps : params) (args : list pyval) (kw : kwargs)
  : result (list (string * pyval)) :=
  match ps with
  | [] =>
      match args, kw with
      | [], [] => Ok []
      | _, _ => Raise TypeError
      end
  | (p, dflt) :: ps' =>
      match args with
      | a :: args' =>
          match assoc p kw with
          | Some _ => Raise TypeError
          | None => rest <- bind_args ps' args' kw ;; Ok ((p, a) :: rest)
          end
      | [] =>
          match assoc p kw, dflt with
          | Some v, _ =>
              rest <- bind_args ps' [] (drop_key p kw) ;; Ok ((p, v) :: rest)
          | None, Some d => rest <- bind_args ps' [] kw ;; Ok ((p, d) :: rest)
          | None, None => Raise TypeError
          end
      end
  end.

(** The value of a parameter inside the body of [__init__]; [bind_args]
    binds every parameter, so the lookup always finds it. *)
Definition local (env : list (string * pyval)) (x : string) : pyval :=
  match assoc x env with
  | Some v => v
  | None => VNone
  end.

(** [coord.split(sep)]: only strings have a [split] method. *)
Definition str_split (v : pyval) (sep : ascii) : result (list string) :=
  match v with
  | VStr s => Ok (split_on sep s)
  | _ => Raise AttributeError
  end.

(** The bodies of the [__init__] methods. *)
Definition init_body (k : kind) (a : string -> pyval) : result node :=
  match k with
  | KProgram => Ok (Program (a "gdecls") VNone (a "coord"))
  | KConstant =>
      Ok (Constant (a "type") (a "value") (a "coord") (a "type") VNone)
  | KCast => Ok (Cast (a "cast") (a "expression") (a "coord") VNone VNone)
  | KType => Ok (Type_ (a "names") (a "coord"))
  | KGlobalDecl => Ok (GlobalDecl (a "decls") (a "coord"))
  | KFuncDecl => Ok (FuncDecl (a "params") (a "type") (a "coord") VNone)
  | KFuncDef =>
      Ok (FuncDef (a "spec") (a "decl") (a "param_decls") (a "body")
            (a "coord") VNone)
  | KFuncCall => Ok (FuncCall (a "name") (a "params") (a "coord") VNone VNone)
  | KVarDecl => Ok (VarDecl (a "declname") (a "type") (a "coord") VNone)
  | KDecl => Ok (Decl (a "name") (a "type") (a "init") (a "coord"))
  | KPtrDecl => Ok (PtrDecl (a "type") (a "coord"))
  | KArrayRef =>
      Ok (ArrayRef (a "name") (a "subscript") (a "coord") VNone VNone VNone
            VNone)
  | KArrayDecl => Ok (ArrayDecl (a "type") (a "tam") (a "coord"))
  | KDeclList => Ok (DeclList (a "decls") (a "coord"))
  | KInitList => Ok (InitList (a "expression") (a "coord") VNone VNone)
  | KExprList => Ok (ExprList (a "expression") (a "coord"))
  | KParamList => Ok (ParamList (a "params") (a "coord"))
  | KUnaryOp => Ok (UnaryOp (a "op") (a "expression") (a "coord") VNone VNone)
  | KBinaryOp =>
      Ok (BinaryOp (a "op") (a "left_val") (a "right_val") (a "coord") VNone
            VNone)
  | KAssignment =>
      Ok (Assignment (a "op") (a "value1") (a "value2") (a "coord"))
  | KCompound =>
      parts <- str_split (a "coord") colon ;;
      Ok (Compound (a "block_items") (VStr (hd EmptyString parts ++ ":1")))
  | KEmptyStatement => Ok (EmptyStatement (a "coord"))
  | KBreak => Ok (Break (a "coord"))
  | KAssert => Ok (Assert (a "expression") (a "coord"))
  | KFor =>
      Ok (For (a "initial") (a "cond") (a "next") (a "statement") (a "coord")
            VNone)
  | KWhile => Ok (While (a "cond") (a "statement") (a "coord") VNone)
  | KReturn => Ok (Return (a "expression") (a "coord"))
  | KID => Ok (ID (a "name") (a "coord") VNone VNone VNone VNone VNone)
  | KPrint => Ok (Print (a "expression") (a "coord"))
  | KRead => Ok (Read (a "expression") (a "coord"))
  | KIf => Ok (If (a "cond") (a "true") (a "false") (a "coord"))
  end.

(** A call of the class [k] with positional arguments [args] and
    keyword arguments [kw]. *)
Definition construct (k : kind) (args : list pyval) (kw : kwargs)
  : result node :=
  env <- bind_args (init_params k) args kw ;;
  init_body k (local env).

(** [Coord(line, column=None)] *)
Definition new_Coord (line : pyval) (column : option pyval) : pyval :=
  Coord line (match column with Some c => c | None => VNone end).

(** ** Truth value and identity tests *)

(** The truth value of an object.  [Coord] and the node classes define
    neither [__bool__] nor [__len__], so their instances are true. *)
Definition truthy (v : pyval) : bool :=
  match v with
  | VNone => false
  | VInt z => negb (Z.eqb z 0)
  | VStr s => match s with EmptyString => false | _ => true end
  | VList l => match l with [] => false | _ => true end
  | Coord _ _ => true
  | VNode _ => true
  end.

(** [v is None] *)
Definition is_none (v : pyval) : bool :=
  match v with
  | VNone => true
  | _ => false
  end.

(** ** Iteration

    A [for] loop over an object receives items one at a time until the
    iterator is exhausted or raises.  [iter_value v] is that run: the
    items produced, and the exception that ended the run if there is
    one.  Lists and strings are iterable, a node is iterated through its
    class's [__iter__]; [None], integers and [Coord] objects are not
    iterable and raise [TypeError] before any item.

    An [__iter__] whose body contains [yield] is a generator.  The
    [__iter__] of [Constant], [Type], [EmptyStatement], [Break] and [ID]
    is a bare [return]: it is an ordinary method that returns [None], and
    iterating such a node raises [TypeError]. *)

Record trace : Type := Trace { yielded : list pyval; stopped : option exn }.

Definition done (l : list pyval) : trace := Trace l None.
Definition fails (e : exn) : trace := Trace [] (Some e).

(** The items [l], then the run [t]. *)
Definition followed_by (l : list pyval) (t : trace) : trace :=
  Trace (l ++ yielded t) (stopped t).

(** A loop that runs to the end of [t] and whose body does not raise:
    all the items, or the exception of [t]. *)
Definition consume (t : trace) : result (list pyval) :=
  match stopped t with
  | None => Ok (yielded t)
  | Some e => Raise e
  end.

(** [x or []], iterated by [iter]. *)
Definition or_empty (iter : pyval -> trace) (x : pyval) : trace :=
  if truthy x then iter x else done [].

(** [if x is not None: yield x] *)
Definition yield_present (x : pyval) : list pyval :=
  if is_none x then [] else [x].

Fixpoint iter_value (v : pyval) : trace :=
  match v with
  | VList l => done l
  | VStr s => done (map VStr (chars s))
  | VNode n => iter_node n
  | VNone => fails TypeError
  | VInt _ => fails TypeError
  | Coord _ _ => fails TypeError
  end
with iter_node (n : node) : trace :=
  match n with
  | Program gdecls _ _ => or_empty iter_value gdecls
  | Constant _ _ _ _ _ => fails TypeError
  | Cast cast expression _ _ _ =>
      done (yield_present cast ++ yield_present expression)
  | Type_ _ _ => fails TypeError
  | GlobalDecl decls _ => or_empty iter_value decls
  | FuncDecl params type _ _ =>
      done (yield_present params ++ yield_present type)
  | FuncDef spec decl param_decls body _ _ =>
      followed_by
        (yield_present spec ++ yield_present decl ++ yield_present body)
        (or_empty iter_value param_decls)
  | FuncCall name params _ _ _ =>
      done (yield_present name ++ yield_present params)
  | VarDecl _ type _ _ => done (yield_present type)
  | Decl _ type init _ => done (yield_present type ++ yield_present init)
  | PtrDecl type _ => done (yield_present type)
  | ArrayRef name subscript _ _ _ _ _ =>
      done (yield_present name ++ yield_present subscript)
  | ArrayDecl type tam _ => done (yield_present type ++ yield_present tam)
  | DeclList decls _ =>
      (* for i in enumerate(self.decls or []): yield child
         [child] is not bound: the first turn of the loop raises. *)
      let t := or_empty iter_value decls in
      match yielded t with
      | [] => Trace [] (stopped t)
      | _ :: _ => fails NameError
      end
  | InitList expression _ _ _ => or_empty iter_value expression
  | ExprList expression _ => or_empty iter_value expression
  | ParamList params _ => or_empty iter_value params
  | UnaryOp _ expression _ _ _ => done (yield_present expression)
  | BinaryOp _ left_val right_val _ _ _ =>
      done (yield_present left_val ++ yield_present right_val)
  | Assignment _ value1 value2 _ =>
      done (yield_present value1 ++ yield_present value2)
  | Compound block_items _ => or_empty iter_value block_items
  | EmptyStatement _ => fails TypeError
  | Break _ => fails TypeError
  | Assert expression _ => done (yield_present expression)
  | For initial cond next statement _ _ =>
      done (yield_present initial ++ yield_present cond ++ yield_present next
              ++ yield_present statement)
  | While cond statement _ _ =>
      done (yield_present cond ++ yield_present statement)
  | Return expression _ => done (yield_present expression)
  | ID _ _ _ _ _ _ _ => fails TypeError
  | Print expression _ => or_empty iter_value expression
  | Read expression _ => or_empty iter_value expression
  | If cond true_ false_ _ =>
      done (yield_present cond ++ yield_present true_ ++ yield_present false_)
  end.

(** ** children() *)

(** [enumerate(l)], counting from [i]. *)
Fixpoint enumerate_from {A} (i : nat) (l : list A) : list (nat * A) :=
  match l with
  | [] => []
  | a :: t => (i, a) :: enumerate_from (S i) t
  end.
Definition enumerate {A} (l : list A) : list (nat * A) := enumerate_from 0 l.

(** ["name[%d]" % i] *)
Definition indexed (name : string) (i : nat) : string :=
  name ++ "[" ++ str_of_nat i ++ "]".

(** [if x is not None: nodelist.append((name, x))] *)
Definition append_present (name : string) (x : pyval) : list (string * pyval) :=
  if is_none x then [] else [(name, x)].

(** [for i, child in enumerate(x or []): nodelist.append(("name[%d]" % i, child))] *)
Definition append_each (name : string) (x : pyval)
  : result (list (string * pyval)) :=
  items <- consume (or_empty iter_value x) ;;
  Ok (map (fun ic => (indexed name (fst ic), snd ic)) (enumerate items)).

(** The loop of [Print.children], which appends only the elements that
    are not [None], under the index they have in the sequence. *)
Definition append_each_present (name : string) (x : pyval)
  : result (list (string * pyval)) :=
  items <- consume (or_empty iter_value x) ;;
  Ok (map (fun ic => (indexed name (fst ic), snd ic))
        (filter (fun ic => negb (is_none (snd ic))) (enumerate items))).

(** [return tuple(nodelist)] *)
Definition tuple (nodelist : list (string * pyval))
  : result (list (string * pyval)) := Ok nodelist.

Definition children (n : node) : result (list (string * pyval)) :=
  match n with
  | Program gdecls _ _ => append_each "gdecls" gdecls
  | Constant _ _ _ _ _ => Ok []
  | Cast cast expression _ _ _ =>
      tuple (append_present "cast" cast ++ append_present "expression" expression)
  | Type_ _ _ => Ok []
  | GlobalDecl decls _ => append_each "decls" decls
  | FuncDecl params type _ _ =>
      tuple (append_present "params" params ++ append_present "type" type)
  | FuncDef spec decl param_decls body _ _ =>
      rest <- append_each "param_decls" param_decls ;;
      tuple (append_present "spec" spec ++ append_present "decl" decl
            ++ append_present "body" body ++ rest)
  | FuncCall name params _ _ _ =>
      tuple (append_present "name" name ++ append_present "params" params)
  | VarDecl _ type _ _ => tuple (append_present "type" type)
  | Decl _ type init _ =>
      tuple (append_present "type" type ++ append_present "init" init)
  | PtrDecl type _ => tuple (append_present "type" type)
  | ArrayRef name subscript _ _ _ _ _ =>
      tuple (append_present "name" name ++ append_present "subscript" subscript)
  | ArrayDecl type tam _ =>
      tuple (append_present "type" type ++ append_present "tam" tam)
  | DeclList decls _ => append_each "decls" decls
  | InitList expression _ _ _ => append_each "expression" expression
  | ExprList expression _ => append_each "expression" expression
  | ParamList params _ => append_each "params" params
  | UnaryOp _ expression _ _ _ => tuple (append_present "expression" expression)
  | BinaryOp _ left_val right_val _ _ _ =>
      tuple (append_present "left_val" left_val
            ++ append_present "right_val" right_val)
  | Assignment _ value1 value2 _ =>
      tuple (append_present "value1" value1 ++ append_present "value2" value2)
  | Compound block_items _ => append_each "block_items" block_items
  | EmptyStatement _ => Ok []
  | Break _ => Ok []
  | Assert expression _ => tuple (append_present "expression" expression)
  | For initial cond next statement _ _ =>
      tuple (append_present "initial" initial ++ append_present "cond" cond
            ++ append_present "next" next
            ++ append_present "statement" statement)
  | While cond statement _ _ =>
      tuple (append_present "cond" cond ++ append_present "statement" statement)
  | Return expression _ => tuple (append_present "expression" expression)
  | ID _ _ _ _ _ _ _ => Ok []
  | Print expression _ => append_each_present "expression" expression
  | Read expression _ => append_each "expression" expression
  | If cond true_ false_ _ =>
      tuple (append_present "cond" cond ++ append_present "true" true_
            ++ append_present "false" false_)
  end.

(** ** repr and str of Python values *)

Definition backslash : ascii := ascii_of_nat 92.
Definition quote1 : ascii := ascii_of_nat 39.
Definition quote2 : ascii := ascii_of_nat 34.

Fixpoint has_char (c : ascii) (s : string) : bool :=
  match s with
  | EmptyString => false
  | String a t => Ascii.eqb a c || has_char c t
  end.

Definition hex_digit (n : nat) : ascii :=
  nth n (list_ascii_of_string "0123456789abcdef") "0"%char.

Definition str1 (c : ascii) : string := String c EmptyString.

(** One character of a string literal delimited by [q].  Bytes above
    127 are kept as they are, which is what Python does for the
    printable non-ASCII characters. *)
Definition escape_char (q c : ascii) : string :=
  let n := nat_of_ascii c in
  if Ascii.eqb c backslash || Ascii.eqb c q then String backslash (str1 c)
  else if Nat.eqb n 9 then String backslash "t"
  else if Nat.eqb n 10 then String backslash "n"
  else if Nat.eqb n 13 then String backslash "r"
  else if Nat.ltb n 32 || Nat.eqb n 127 then
    String backslash
      (String "x" (String (hex_digit (n / 16)) (str1 (hex_digit (n mod 16)))))
  else str1 c.

Fixpoint escape (q : ascii) (s : string) : string :=
  match s with
  | EmptyString => EmptyString
  | String c t => escape_char q c ++ escape q t
  end.

(** [repr(s)] of a string: single quotes, unless the string holds a
    single quote and no double quote. *)
Definition repr_str (s : string) : string :=
  let q := if has_char quote1 s && negb (has_char quote2 s)
           then quote2 else quote1 in
  String q (escape q s ++ str1 q).

(** [repr] of the values that are neither lists nor nodes (those two
    are rendered by [_repr] and [py_repr] below and never reach this
    function).  [Coord] defines no [__repr__]; CPython then prints the
    module path and the address of the instance, which this text leaves
    out. *)
Definition atom_repr (v : pyval) : string :=
  match v with
  | VNone => "None"
  | VInt z => str_of_Z z
  | VStr s => repr_str s
  | Coord _ _ => "<Coord object>"
  | VList _ => EmptyString
  | VNode _ => EmptyString
  end.

(** [s[:-1]] *)
Fixpoint str_removelast (s : string) : string :=
  match s with
  | EmptyString => EmptyString
  | String a t =>
      match t with
      | EmptyString => EmptyString
      | _ => String a (str_removelast t)
      end
  end.

(** The names [self.__slots__[:-1]] runs through: the tuple without its
    last name, or the characters of the string without its last one. *)
Definition slots_but_last (k : kind) : list string :=
  match slots k with
  | SlotTuple l => removelast l
  | SlotString s => chars (str_removelast s)
  end.

(** The state of the loop of [Node.__repr__]. *)
Record repr_state : Type :=
  ReprState { r_result : string; r_separator : string; r_indent : string }.

(** One turn of the loop; [look name] is [_repr(getattr(self, name))]. *)
Definition repr_turn (cls : string) (look : string -> result string)
    (st : result repr_state) (name : string) : result repr_state :=
  st <- st ;;
  r <- look name ;;
  Ok (ReprState
        (r_result st ++ r_separator st ++ r_indent st ++ name ++ "="
           ++ replace_nl
                (nl ++ "  " ++ spaces (String.length name + String.length cls))
                r)
        ","
        (nl ++ " " ++ spaces (String.length cls))).

Definition repr_loop (k : kind) (look : string -> result string)
  : result string :=
  let cls := class_name k in
  st <- fold_left (repr_turn cls look) (slots_but_last k)
          (Ok (ReprState (cls ++ "(") EmptyString EmptyString)) ;;
  Ok (r_result st ++ ")").

Definition lookup_in {A} (l : list (string * result A)) (name : string)
  : result A :=
  match assoc name l with
  | Some r => r
  | None => Raise AttributeError
  end.

(** [_repr] and [Node.__repr__], then the built-in [repr]. *)
Fixpoint _repr (obj : pyval) : result string :=
  match obj with
  | VList l =>
      rs <- mapM (fun e => r <- _repr e ;; Ok (replace_nl (nl ++ " ") r)) l ;;
      Ok ("[" ++ String.concat ("," ++ nl ++ " ") rs ++ nl ++ "]")
  | VNode n => node_repr n
  | VNone => Ok (atom_repr obj)
  | VInt _ => Ok (atom_repr obj)
  | VStr _ => Ok (atom_repr obj)
  | Coord _ _ => Ok (atom_repr obj)
  end
with node_repr (n : node) : result string :=
  repr_loop (kind_of n) (lookup_in (fields_with _repr n)).

Fixpoint py_repr (v : pyval) : result string :=
  match v with
  | VList l =>
      rs <- mapM py_repr l ;;
      Ok ("[" ++ String.concat ", " rs ++ "]")
  | VNode n => node_repr n
  | VNone => Ok (atom_repr v)
  | VInt _ => Ok (atom_repr v)
  | VStr _ => Ok (atom_repr v)
  | Coord _ _ => Ok (atom_repr v)
  end.

(** [str(v)], which is what ['%s' % v] formats.  Only [Coord] defines
    [__str__]; for the other objects [str] is [repr]. *)
Fixpoint py_str (v : pyval) : result string :=
  match v with
  | VStr s => Ok s
  | Coord line column =>
      if truthy line then
        l <- py_str line ;;
        c <- py_str column ;;
        Ok ("   @ " ++ l ++ ":" ++ c)
      else Ok EmptyString
  | _ => py_repr v
  end.

(** ** The tree printer, [Node.show] *)

(** What a call has written to [buf], and the exception that ended the
    call if one was raised. *)
Record output : Type := Output { written : string; raised : option exn }.

Definition write (s : string) : output := Output s None.
Definition abort (e : exn) : output := Output EmptyString (Some e).

(** [a], then [b] unless [a] raised. *)
Definition and_then (a b : output) : output :=
  match raised a with
  | Some _ => a
  | None => Output (written a ++ written b) (raised b)
  end.

Infix ">>" := and_then (at level 62, left associativity).

(** [buf.write(text)] for a text whose computation may raise. *)
Definition write_result (text : result string) : output :=
  match text with
  | Ok s => write s
  | Raise e => abort e
  end.

(** [[(n, getattr(self, n)) for n in names if getattr(self, n) is not None]] *)
Fixpoint nvlist (self : node) (names : list string)
  : result (list (string * pyval)) :=
  match names with
  | [] => Ok []
  | x :: t =>
      v <- getattr self x ;;
      rest <- nvlist self t ;;
      Ok (if is_none v then rest else (x, v) :: rest)
  end.

(** [[getattr(self, n) for n in names]] *)
Definition vlist (self : node) (names : list string) : result (list pyval) :=
  mapM (getattr self) names.

(** ['%s=%s' % nv] *)
Definition format_nv (nv : string * pyval) : result string :=
  v <- py_str (snd nv) ;; Ok (fst nv ++ "=" ++ v).

(** The text [attrstr] that [show] computes from [attr_names]. *)
Definition attrstr (self : node) (attrnames : bool) : result string :=
  if attrnames then
    nvs <- nvlist self (attr_names (kind_of self)) ;;
    texts <- mapM format_nv nvs ;;
    Ok (String.concat ", " texts)
  else
    vs <- vlist self (attr_names (kind_of self)) ;;
    texts <- mapM py_str vs ;;
    Ok (String.concat ", " texts).

(** The keyword options of [show] that are passed down unchanged. *)
Record show_options : Type :=
  ShowOptions { attrnames : bool; nodenames : bool; showcoord : bool }.

(** The line [show] writes for the node itself. *)
Definition show_line (self : node) (o : show_options) (offset : nat)
    (_my_node_name : option string) : output :=
  let lead := spaces offset in
  let cls := class_name (kind_of self) in
  write (match nodenames o, _my_node_name with
         | true, Some name => lead ++ cls ++ " <" ++ name ++ ">: "
         | _, _ => lead ++ cls ++ ": "
         end)
  >> match attr_names (kind_of self) with
     | [] => write EmptyString
     | _ :: _ => write_result (attrstr self (attrnames o))
     end
  >> (if showcoord o then
        match getattr self "coord" with
        | Ok c => if truthy c then write_result (py_str c)
                  else write EmptyString
        | Raise e => abort e
        end
      else write EmptyString)
  >> write nl.

(** [show] calls itself on the children; the recursion is bounded by
    [fuel], and [show] below supplies more than the nesting depth of the
    node.  A child that is not a node has no [show] method. *)
Fixpoint show_fuel (fuel : nat) (self : node) (o : show_options)
    (offset : nat) (_my_node_name : option string) : output :=
  match fuel with
  | O => write EmptyString
  | S fuel' =>
      show_line self o offset _my_node_name
      >> match children self with
         | Raise e => abort e
         | Ok cs =>
             fold_left
               (fun out (nc : string * pyval) =>
                  out >> match snd nc with
                         | VNode child =>
                             show_fuel fuel' child o (offset + 4)
                               (Some (fst nc))
                         | _ => abort AttributeError
                         end)
               cs (write EmptyString)
         end
  end.

(** The nesting depth of nodes inside a value. *)
Fixpoint depth_value (v : pyval) : nat :=
  match v with
  | VList l => list_max (map depth_value l)
  | VNode n => depth_node n
  | _ => 0
  end
with depth_node (n : node) : nat :=
  S (list_max (map snd (fields_with depth_value n))).

Definition show (self : node) (o : show_options) (offset : nat)
    (_my_node_name : option string) : output :=
  show_fuel (depth_node self) self o offset _my_node_name.

(** ** Vocabulary of the properties *)

(** The number of parameters without a default. *)
Definition required_count (k : kind) : nat :=
  length (filter (fun p => match snd p with None => true | Some _ => false end)
            (init_params k)).

(** The expression classes that reserve a [gen_location] slot. *)
Definition annotated_expressions : list kind :=
  [KConstant; KID; KBinaryOp; KUnaryOp; KCast; KFuncCall; KArrayRef;
   KInitList].

(** How [children()] treats a field: a single child, reported when it
    is not [None]; a sequence, reported element by element under an
    indexed name; or, for [Print], a sequence of which only the elements
    that are not [None] are reported. *)
Inductive child_shape : Type := Single | Sequence | SequencePresent.

(** The fields [children()] reports, in the order the class declares
    them in [__slots__] and [__init__]. *)
Definition child_fields (k : kind) : list (string * child_shape) :=
  match k with
  | KProgram => [("gdecls", Sequence)]
  | KConstant => []
  | KCast => [("cast", Single); ("expression", Single)]
  | KType => []
  | KGlobalDecl => [("decls", Sequence)]
  | KFuncDecl => [("params", Single); ("type", Single)]
  | KFuncDef =>
      [("spec", Single); ("decl", Single); ("param_decls", Sequence);
       ("body", Single)]
  | KFuncCall => [("name", Single); ("params", Single)]
  | KVarDecl => [("type", Single)]
  | KDecl => [("type", Single); ("init", Single)]
  | KPtrDecl => [("type", Single)]
  | KArrayRef => [("name", Single); ("subscript", Single)]
  | KArrayDecl => [("type", Single); ("tam", Single)]
  | KDeclList => [("decls", Sequence)]
  | KInitList => [("expression", Sequence)]
  | KExprList => [("expression", Sequence)]
  | KParamList => [("params", Sequence)]
  | KUnaryOp => [("expression", Single)]
  | KBinaryOp => [("left_val", Single); ("right_val", Single)]
  | KAssignment => [("value1", Single); ("value2", Single)]
  | KCompound => [("block_items", Sequence)]
  | KEmptyStatement => []
  | KBreak => []
  | KAssert => [("expression", Single)]
  | KFor =>
      [("initial", Single); ("cond", Single); ("next", Single);
       ("statement", Single)]
  | KWhile => [("cond", Single); ("statement", Single)]
  | KReturn => [("expression", Single)]
  | KID => []
  | KPrint => [("expression", SequencePresent)]
  | KRead => [("expression", Sequence)]
  | KIf => [("cond", Single); ("true", Single); ("false", Single)]
  end.

(** The pairs [(name[i], x)] for the elements [x] of [l], counted from
    [i] on; with [skip], an element that is [None] gives no pair and
    the elements after it keep their index. *)
Fixpoint numbered (skip : bool) (name : string) (i : nat) (l : list pyval)
  : list (string * pyval) :=
  match l with
  | [] => []
  | x :: t =>
      let pair := (name ++ "[" ++ str_of_nat i ++ "]", x) in
      let rest := numbered skip name (S i) t in
      match skip, x with
      | true, VNone => rest
      | _, _ => pair :: rest
      end
  end.

(** The pairs one field contributes when it holds [v]: a single child
    that is not [None] under the name of the field, the elements of a
    list under numbered names. *)
Definition field_pairs (f : string * child_shape) (v : pyval)
  : list (string * pyval) :=
  match snd f, v with
  | Single, VNone => []
  | Single, _ => [(fst f, v)]
  | Sequence, VList l => numbered false (fst f) 0 l
  | SequencePresent, VList l => numbered true (fst f) 0 l
  | _, _ => []
  end.

(** The value of a slot. *)
Definition value_of (self : node) (name : string) : pyval :=
  match getattr self name with
  | Ok v => v
  | Raise _ => VNone
  end.

(** The pairs of the fields of [self], field after field in [order]. *)
Definition pairs_in_order (self : node)
    (order : list (string * child_shape)) : list (string * pyval) :=
  flat_map (fun f => field_pairs f (value_of self (fst f))) order.

(** The claim of the specification: the present children, in declared
    field order. *)
Definition children_spec (self : node) : list (string * pyval) :=
  pairs_in_order self (child_fields (kind_of self)).

(** The sequence field of the node, if it has one, holds [None] or a
    list. *)
Definition list_or_None (v : pyval) : bool :=
  match v with
  | VNone => true
  | VList _ => true
  | _ => false
  end.

Definition sequences_are_lists (self : node) : bool :=
  forallb
    (fun f =>
       match snd f with
       | Single => true
       | _ => list_or_None (value_of self (fst f))
       end)
    (child_fields (kind_of self)).

Definition is_single (f : string * child_shape) : bool :=
  match snd f with
  | Single => true
  | _ => false
  end.

(** The single-valued fields first, then the sequences. *)
Definition singles_first (l : list (string * child_shape))
  : list (string * child_shape) :=
  filter is_single l ++ filter (fun f => negb (is_single f)) l.

(** [l] is [m] with some elements left out. *)
Fixpoint subsequence (l m : list string) : bool :=
  match l, m with
  | [], _ => true
  | _ :: _, [] => false
  | x :: l', y :: m' =>
      if String.eqb x y then subsequence l' m' else subsequence l m'
  end.

(** The classes whose [__iter__] and [children] walk the same items. *)
Definition iterates_children (k : kind) : bool :=
  match k with
  | KDeclList | KPrint => false
  | KConstant | KType | KEmptyStatement | KBreak | KID => false
  | _ => true
  end.

(** The attributes [attr_names] lists, with their values. *)
Definition attr_items (self : node) : list (string * pyval) :=
  match self with
  | Constant type value _ _ _ => [("type", type); ("value", value)]
  | Type_ names _ => [("names", names)]
  | Decl name _ _ _ => [("name", name)]
  | UnaryOp op _ _ _ _ => [("op", op)]
  | BinaryOp op _ _ _ _ _ => [("op", op)]
  | Assignment op _ _ _ => [("op", op)]
  | ID name _ _ _ _ _ _ => [("name", name)]
  | _ => []
  end.

(** The classes that declare [coord] as the last of a tuple of slots. *)
Definition coord_is_last_slot (k : kind) : bool :=
  match slots k with
  | SlotTuple l => String.eqb (last l EmptyString) "coord"
  | SlotString _ => false
  end.



(** The text the specification expects for a [Program] of two
    [GlobalDecl] without declarations. *)
Definition expected_Program_text : string :=
  "Program(gdecls=[GlobalDecl(decls=[])," ++ nl
    ++ " GlobalDecl(decls=[])" ++ nl ++ "])".

(** The text [Node.__repr__] produces for it. *)
Definition actual_Program_text : string :=
  "Program(gdecls=[GlobalDecl(decls=[" ++ nl
    ++ spaces 33 ++ "])," ++ nl
    ++ spaces 16 ++ "GlobalDecl(decls=[" ++ nl
    ++ spaces 33 ++ "])" ++ nl
    ++ spaces 15 ++ "]," ++ nl
    ++ spaces 8 ++ "symtab=None)".


(** The field of the classes that hold nothing but one sequence of
    children. *)
Definition sequence_field (n : node) : option pyval :=
  match n with
  | Program gdecls _ _ => Some gdecls
  | GlobalDecl decls _ => Some decls
  | DeclList decls _ => Some decls
  | InitList expression _ _ _ => Some expression
  | ExprList expression _ => Some expression
  | ParamList params _ => Some params
  | Compound block_items _ => Some block_items
  | Print expression _ => Some expression
  | Read expression _ => Some expression
  | _ => None
  end.

(** The classes all of whose children are single-valued fields. *)
Definition single_valued (k : kind) : bool :=
  forallb is_single (child_fields k).

(** The parameters [__init__] stores unchanged in the slot of their
    name: all but [symtab] of [Program], which is dropped, and [coord]
    of [Compound], which is rewritten. *)
Definition stored_as_given (k : kind) (p : string) : bool :=
  match k with
  | KProgram => negb (String.eqb p "symtab")
  | KCompound => negb (String.eqb p "coord")
  | _ => true
  end.


(** How [children()] uses a slot: as a single child, as a sequence of
    children, as the sequence of [Print], or not at all. *)
Inductive role : Type := RChild | RChildren | RChildrenOpt | RFree.

Definition role_of (k : kind) (name : string) : role :=
  match assoc name (child_fields k) with
  | Some Single => RChild
  | Some Sequence => RChildren
  | Some SequencePresent => RChildrenOpt
  | None => RFree
  end.

(** [None], or a value accepted by [t]. *)
Definition opt_of (t : pyval -> bool) (v : pyval) : bool :=
  match v with
  | VNone => true
  | _ => t v
  end.

(** [None], or a list of values accepted by [t]. *)
Definition list_of (t : pyval -> bool) (v : pyval) : bool :=
  match v with
  | VNone => true
  | VList l => forallb t l
  | _ => false
  end.

(** A value seen under each of the roles. *)
Record views : Type :=
  Views { as_child : bool; as_children : bool; as_children_opt : bool }.

Definition fits (r : role) (w : views) : bool :=
  match r with
  | RChild => as_child w
  | RChildren => as_children w
  | RChildrenOpt => as_children_opt w
  | RFree => true
  end.

(** The trees a parser builds: every single child is [None] or a node,
    every sequence of children is [None] or a list of nodes (a list of
    nodes and [None] for [Print]), and the children are such trees
    themselves. *)
Fixpoint is_tree (v : pyval) : bool :=
  match v with
  | VNode n => tree_ok n
  | _ => false
  end
with tree_ok (n : node) : bool :=
  forallb (fun p => fits (role_of (kind_of n) (fst p)) (snd p))
    (fields_with
       (fun v =>
          Views (opt_of is_tree v) (list_of is_tree v)
            (list_of (opt_of is_tree) v))
       n).

(** * Properties *)

(** ** Construction *)

Section Construction.

(** Every [__init__] takes [coord] as its last parameter. *)
Lemma coord_is_last_parameter (k : kind) :
  last (map fst (init_params k)) EmptyString = "coord".
Proof. destruct k; reflexivity. Qed.

(** Every slot of a freshly constructed node is one of [__slots__]. *)
Lemma fields_are_slots (n : node) :
  map fst (fields n) = slot_names (kind_of n).
Proof. destruct n; reflexivity. Qed.

Lemma construct_kind (k : kind) (args : list pyval) (kw : kwargs) (n : node) :
  construct k args kw = Ok n -> kind_of n = k.
Proof.
  unfold construct.
  destruct (bind_args (init_params k) args kw) as [env|e]; simpl;
    [|discriminate].
  destruct k; simpl; try (intros H; injection H as <-; reflexivity).
  destruct (str_split (local env "coord") colon); simpl;
    [intros H; injection H as <-; reflexivity | discriminate].
Qed.

(** *** Splitting a text coordinate *)

Lemma split_on_hd_free (sep : ascii) (s : string) :
  has_char sep (hd EmptyString (split_on sep s)) = false.
Proof.
  induction s as [|a t IH]; simpl; [reflexivity|].
  destruct (Ascii.eqb a sep) eqn:E; simpl; [reflexivity|].
  destruct (split_on sep t) as [|h r] eqn:Es; simpl in *.
  - now rewrite E.
  - now rewrite E, IH.
Qed.

Lemma split_on_prefix (sep : ascii) (p rest : string) :
  has_char sep p = false ->
  split_on sep (p ++ String sep rest) = p :: split_on sep rest.
Proof.
  induction p as [|a t IH]; simpl; intros H.
  - now rewrite Ascii.eqb_refl.
  - apply orb_false_iff in H as [Ha Ht].
    rewrite Ha, (IH Ht). reflexivity.
Qed.

(** C1, as amended.  A [Compound] built with a text coordinate [s]
    stores the text of [s] before its first colon followed by [":1"]:
    the column part of the stored coordinate is [1] whatever column [s]
    named, and construction succeeds for every text coordinate. *)
Theorem Compound_column_normalized (block_items : pyval) (s : string) :
  let line := hd EmptyString (split_on colon s) in
  construct KCompound [block_items; VStr s] []
    = Ok (Compound block_items (VStr (line ++ ":1")))
  /\ split_on colon (line ++ ":1") = [line; "1"].
Proof.
  intros line. split; [reflexivity|].
  change (line ++ ":1") with (line ++ String colon "1").
  rewrite split_on_prefix by apply split_on_hd_free.
  reflexivity.
Qed.

(** The coordinate the claim names, line 10 and column 7, as text. *)
Example Compound_10_7 (block_items : pyval) :
  construct KCompound [block_items; VStr "10:7"] []
    = Ok (Compound block_items (VStr "10:1")).
Proof. reflexivity. Qed.

(** C1 fails as stated: construction does not succeed for every
    coordinate value.  The [Coord] object with line 10 and column 7 has
    no [split] method and the constructor raises. *)
Lemma Compound_rejects_Coord_object :
  construct KCompound
    [VList []; new_Coord (VInt 10) (Some (VInt 7))] []
    = Raise AttributeError.
Proof. reflexivity. Qed.

(** C2 fails on the code.  [While.__init__] declares [coord] without a
    default, so a call that omits it raises [TypeError]; and
    [Compound.__init__] calls [split] on its default [None]. *)
Theorem While_and_Compound_need_coord (a b : pyval) :
  construct KWhile [a; b] [] = Raise TypeError
  /\ construct KCompound [a] [] = Raise AttributeError.
Proof. split; reflexivity. Qed.

(** The other twenty-nine constructors accept a call that omits the
    coordinate and store [None] as the coordinate. *)
Lemma coord_defaults_to_None (k : kind) (args : list pyval) :
  k <> KWhile -> k <> KCompound ->
  length args = required_count k ->
  exists n, construct k args [] = Ok n /\ getattr n "coord" = Ok VNone.
Proof.
  intros HW HC Hlen.
  destruct k; try congruence; clear HW HC;
    unfold required_count in Hlen; simpl in Hlen;
    repeat (destruct args as [|? args]; simpl in Hlen; try discriminate);
    eexists; split; reflexivity.
Qed.

(** C10.  Whatever is passed as [symtab], the [symtab] field of the new
    [Program] is [None]; the other arguments are stored. *)
Theorem Program_symtab_discarded (gdecls s : pyval) :
  exists n,
    construct KProgram [gdecls] [("symtab", s)] = Ok n
    /\ getattr n "symtab" = Ok VNone
    /\ getattr n "gdecls" = Ok gdecls.
Proof. eexists. repeat split; reflexivity. Qed.

(** The same holds however the arguments are passed. *)
Lemma Program_symtab_always_None (args : list pyval) (kw : kwargs) (n : node) :
  construct KProgram args kw = Ok n -> getattr n "symtab" = Ok VNone.
Proof.
  unfold construct.
  destruct (bind_args (init_params KProgram) args kw); simpl;
    [|discriminate].
  intros H; injection H as <-. reflexivity.
Qed.

(** C9, as amended.  [ID], [BinaryOp], [UnaryOp], [Cast], [FuncCall] and
    [ArrayRef] leave construction with a [type] slot and a
    [gen_location] slot that both hold [None]; [Constant] and [InitList]
    with a [gen_location] slot that holds [None]. *)
Theorem annotation_slots_start_empty
    (k : kind) (args : list pyval) (kw : kwargs) (n : node)
    (Hk : In k annotated_expressions)
    (Hn : construct k args kw = Ok n) :
  getattr n "gen_location" = Ok VNone
  /\ (k <> KConstant -> k <> KInitList -> getattr n "type" = Ok VNone).
Proof.
  unfold construct in Hn.
  destruct (bind_args (init_params k) args kw) as [env|e]; simpl in Hn;
    [|discriminate].
  simpl in Hk.
  repeat (destruct Hk as [<-|Hk]; [
    simpl in Hn; injection Hn as <-; split;
      [reflexivity | intros; try congruence; reflexivity] |]).
  contradiction.
Qed.

Lemma annotation_slots_start_empty_witness :
  In KID annotated_expressions
  /\ construct KID [VStr "x"] []
       = Ok (ID (VStr "x") VNone VNone VNone VNone VNone VNone)
  /\ getattr (ID (VStr "x") VNone VNone VNone VNone VNone VNone)
       "gen_location" = Ok VNone
  /\ getattr (ID (VStr "x") VNone VNone VNone VNone VNone VNone)
       "type" = Ok VNone.
Proof.
  assert (Hk : In KID annotated_expressions) by (simpl; tauto).
  assert (Hn : construct KID [VStr "x"] []
               = Ok (ID (VStr "x") VNone VNone VNone VNone VNone VNone))
    by reflexivity.
  destruct (annotation_slots_start_empty KID [VStr "x"] [] _ Hk Hn)
    as [Hg Ht].
  split; [exact Hk|]. split; [exact Hn|]. split; [exact Hg|].
  apply Ht; discriminate.
Defined.

(** C9 fails as stated: an [Assignment] has neither a [type] nor a
    [gen_location] slot, and no more has an [ExprList]; an [InitList]
    has no [type] slot; the [type] slot of a [Constant] holds the type
    it was built with. *)
Lemma Assignment_has_no_annotation_slot :
  construct KAssignment [VStr "="; VNone; VNone] []
    = Ok (Assignment (VStr "=") VNone VNone VNone)
  /\ getattr (Assignment (VStr "=") VNone VNone VNone) "type"
       = Raise AttributeError
  /\ getattr (Assignment (VStr "=") VNone VNone VNone) "gen_location"
       = Raise AttributeError.
Proof. repeat split; reflexivity. Qed.

Lemma other_expression_slots (e t v : pyval) :
  slot_names KAssignment = ["op"; "value1"; "value2"; "coord"]
  /\ slot_names KExprList = ["expression"; "coord"]
  /\ (exists n, construct KInitList [e] [] = Ok n
                /\ getattr n "type" = Raise AttributeError)
  /\ (exists n, construct KConstant [t; v] [] = Ok n
                /\ getattr n "type" = Ok t).
Proof.
  repeat split; try reflexivity; eexists; split; reflexivity.
Qed.

End Construction.

(** ** Traversal *)

Section Traversal.

Lemma present_values (name : string) (x : pyval) :
  map snd (append_present name x) = yield_present x.
Proof. unfold append_present, yield_present. now destruct (is_none x). Qed.

Lemma enumerate_values {A} (name : string) (l : list A) (i : nat) :
  map snd (map (fun ic => (indexed name (fst ic), snd ic)) (enumerate_from i l))
  = l.
Proof.
  revert i. induction l as [|a t IH]; intros i; simpl; [reflexivity|].
  now rewrite IH.
Qed.

Lemma each_values (name : string) (x : pyval) :
  fmap (map snd) (append_each name x) = consume (or_empty iter_value x).
Proof.
  unfold append_each, fmap, enumerate.
  destruct (consume (or_empty iter_value x)) as [items|e]; simpl;
    [|reflexivity].
  now rewrite enumerate_values.
Qed.

Lemma consume_done (l : list pyval) : consume (done l) = Ok l.
Proof. reflexivity. Qed.

Lemma consume_followed_by (l : list pyval) (t : trace) :
  consume (followed_by l t) = fmap (app l) (consume t).
Proof. unfold consume, followed_by, fmap; simpl. now destruct (stopped t). Qed.

(** A run that ends normally is the list of its items. *)
Lemma consume_Ok (t : trace) (l : list pyval) :
  consume t = Ok l <-> t = done l.
Proof.
  destruct t as [ys [e|]]; unfold consume, done; simpl; split; intros H;
    try discriminate; now inversion H.
Qed.

(** For the classes of [iterates_children], a loop over the node
    receives the values of [children()], in the same order, and raises
    exactly when [children()] does. *)
Lemma iter_matches_children (n : node) :
  iterates_children (kind_of n) = true ->
  consume (iter_node n) = fmap (map snd) (children n).
Proof.
  destruct n; simpl; try discriminate; intros _;
    try (symmetry; apply each_values);
    try (unfold tuple, fmap; simpl; rewrite ?map_app, ?present_values;
         reflexivity).
  (* FuncDef *)
  rewrite consume_followed_by, <- (each_values "param_decls").
  unfold fmap, tuple. destruct (append_each "param_decls" param_decls); simpl;
    [|reflexivity].
  rewrite !map_app, !present_values. now rewrite <- !app_assoc.
Qed.

(** C3 fails on the code.  [DeclList.__iter__] yields the unbound name
    [child]: a loop over a [DeclList] with at least one declaration
    raises [NameError] before it receives anything, while [children()]
    reports every declaration. *)
Theorem DeclList_iteration_raises (x : pyval) (l : list pyval) (coord : pyval) :
  iter_node (DeclList (VList (x :: l)) coord) = fails NameError
  /\ fmap (map snd) (children (DeclList (VList (x :: l)) coord))
     = Ok (x :: l).
Proof.
  split; [reflexivity|].
  change (children (DeclList (VList (x :: l)) coord))
    with (append_each "decls" (VList (x :: l))).
  now rewrite each_values.
Qed.

(** The other two departures: a node whose [__iter__] is a bare
    [return] cannot be iterated, and a loop over a [Print] receives the
    [None] elements that [Print.children] leaves out. *)
Lemma leaf_and_Print_iteration (name : pyval) :
  iter_node (ID name VNone VNone VNone VNone VNone VNone) = fails TypeError
  /\ children (ID name VNone VNone VNone VNone VNone VNone) = Ok []
  /\ iter_node (Print (VList [VNone; VNode (ID name VNone VNone VNone VNone VNone VNone)]) VNone)
     = done [VNone; VNode (ID name VNone VNone VNone VNone VNone VNone)]
  /\ children (Print (VList [VNone; VNode (ID name VNone VNone VNone VNone VNone VNone)]) VNone)
     = Ok [("expression[1]", VNode (ID name VNone VNone VNone VNone VNone VNone))].
Proof. repeat split; reflexivity. Qed.

(** [child_fields] lists the fields in the order of [__slots__]. *)
Lemma child_fields_declared_order (k : kind) :
  subsequence (map fst (child_fields k)) (slot_names k) = true.
Proof. destruct k; reflexivity. Qed.

(** Only [FuncDef] declares a sequence before a single child. *)
Lemma singles_first_declared (k : kind) :
  singles_first (child_fields k) = child_fields k \/ k = KFuncDef.
Proof. destruct k; (left; reflexivity) || (right; reflexivity). Qed.

Lemma single_pairs (name : string) (v : pyval) :
  append_present name v = field_pairs (name, Single) v.
Proof. now destruct v. Qed.

Lemma enumerate_numbered (name : string) (l : list pyval) (i : nat) :
  map (fun ic => (indexed name (fst ic), snd ic)) (enumerate_from i l)
  = numbered false name i l.
Proof.
  revert i. induction l as [|x t IH]; intros i; simpl; [reflexivity|].
  now rewrite IH.
Qed.

Lemma enumerate_numbered_present (name : string) (l : list pyval) (i : nat) :
  map (fun ic => (indexed name (fst ic), snd ic))
    (filter (fun ic => negb (is_none (snd ic))) (enumerate_from i l))
  = numbered true name i l.
Proof.
  revert i. induction l as [|x t IH]; intros i; simpl; [reflexivity|].
  rewrite <- IH. now destruct x.
Qed.

Lemma append_each_numbered (name : string) (l : list pyval) :
  append_each name (VList l) = Ok (numbered false name 0 l).
Proof.
  rewrite <- enumerate_numbered. unfold append_each, or_empty.
  now destruct l.
Qed.

Lemma append_each_present_numbered (name : string) (l : list pyval) :
  append_each_present name (VList l) = Ok (numbered true name 0 l).
Proof.
  rewrite <- enumerate_numbered_present.
  unfold append_each_present, or_empty. now destruct l.
Qed.

(** On lists, [children()] follows the table [child_fields],
    single-valued fields first. *)
Lemma children_pairs (n : node) :
  sequences_are_lists n = true ->
  children n
  = Ok (pairs_in_order n (singles_first (child_fields (kind_of n)))).
Proof.
  intros H.
  destruct n; cbn in H; rewrite ?andb_true_r in H;
    unfold children, tuple, pairs_in_order;
    cbn -[append_each append_each_present append_present field_pairs];
    rewrite ?single_pairs, ?app_nil_r; try reflexivity;
    match goal with
    | H : list_or_None ?v = true |- _ =>
        destruct v; try discriminate H
    end;
    rewrite ?append_each_numbered, ?append_each_present_numbered;
    reflexivity.
Qed.

(** C7, as amended.  On a node whose sequence field holds [None] or a
    list, [children()] does not raise and returns exactly these pairs:
    the single-valued child fields whose value is not [None], under the
    name of the field and in declared order, then one pair per element
    of the sequence field, in list order and under the name [field[i]];
    a [None] element is reported like any other, except by [Print],
    which leaves its [None] elements out without renumbering the rest.
    This is the declared field order for every class but [FuncDef],
    whose [body] comes before the elements of [param_decls].  An [If]
    whose [false] branch is [None] yields exactly the pairs of [cond]
    and [true]. *)
Theorem children_singles_then_sequences (n : node)
    (H : sequences_are_lists n = true) :
  children n
    = Ok (pairs_in_order n (singles_first (child_fields (kind_of n))))
  /\ (singles_first (child_fields (kind_of n)) = child_fields (kind_of n)
      \/ kind_of n = KFuncDef)
  /\ (forall (c t : node) (coord : pyval),
        children (If (VNode c) (VNode t) VNone coord)
        = Ok [("cond", VNode c); ("true", VNode t)]).
Proof.
  split; [now apply children_pairs|].
  split; [apply singles_first_declared | reflexivity].
Qed.

Lemma children_singles_then_sequences_witness :
  sequences_are_lists
    (FuncDef (VNode (Type_ (VList [VStr "int"]) VNone))
       (VNode (Decl (VStr "f") VNone VNone VNone))
       (VList [VNone; VNode (Decl (VStr "p") VNone VNone VNone)])
       (VNode (Compound (VList []) (VStr "1:1"))) VNone VNone)
  = true
  /\ children
       (FuncDef (VNode (Type_ (VList [VStr "int"]) VNone))
          (VNode (Decl (VStr "f") VNone VNone VNone))
          (VList [VNone; VNode (Decl (VStr "p") VNone VNone VNone)])
          (VNode (Compound (VList []) (VStr "1:1"))) VNone VNone)
     = Ok [("spec", VNode (Type_ (VList [VStr "int"]) VNone));
           ("decl", VNode (Decl (VStr "f") VNone VNone VNone));
           ("body", VNode (Compound (VList []) (VStr "1:1")));
           ("param_decls[0]", VNone);
           ("param_decls[1]", VNode (Decl (VStr "p") VNone VNone VNone))].
Proof.
  split; [reflexivity|].
  exact (proj1
           (children_singles_then_sequences
              (FuncDef (VNode (Type_ (VList [VStr "int"]) VNone))
                 (VNode (Decl (VStr "f") VNone VNone VNone))
                 (VList [VNone; VNode (Decl (VStr "p") VNone VNone VNone)])
                 (VNode (Compound (VList []) (VStr "1:1"))) VNone VNone)
              eq_refl)).
Defined.

(** C7 fails as stated: the children of a [FuncDef] are not in declared
    field order.  [param_decls] is declared before [body], and
    [children()] reports [body] first. *)
Lemma FuncDef_children_not_in_declared_order :
  let spec := VNode (Type_ (VList [VStr "int"]) VNone) in
  let decl := VNode (Decl (VStr "f") VNone VNone VNone) in
  let param := VNode (Decl (VStr "p") VNone VNone VNone) in
  let body := VNode (Compound (VList []) (VStr "1:1")) in
  let n := FuncDef spec decl (VList [param]) body VNone VNone in
  children n
    = Ok [("spec", spec); ("decl", decl); ("body", body);
          ("param_decls[0]", param)]
  /\ children_spec n
     = [("spec", spec); ("decl", decl); ("param_decls[0]", param);
        ("body", body)]
  /\ children n <> Ok (children_spec n).
Proof.
  cbv zeta. split; [reflexivity|]. split; [reflexivity|].
  intros H. vm_compute in H. discriminate H.
Qed.

(** Away from [FuncDef] the claim holds as the specification words it. *)
Lemma children_in_declared_order (n : node) :
  sequences_are_lists n = true -> kind_of n <> KFuncDef ->
  children n = Ok (children_spec n).
Proof.
  intros H Hk. unfold children_spec.
  rewrite (children_pairs n H).
  destruct (singles_first_declared (kind_of n)) as [->|E'];
    [reflexivity | contradiction].
Qed.

End Traversal.

(** ** Representation *)

Section Representation.

Lemma append_assoc (a b c : string) : (a ++ b) ++ c = a ++ (b ++ c).
Proof. induction a as [|x a IH]; simpl; [reflexivity | now rewrite IH]. Qed.

Lemma append_nil_r (a : string) : a ++ EmptyString = a.
Proof. induction a as [|x a IH]; simpl; [reflexivity | now rewrite IH]. Qed.




(** On anything but a list, [_repr] is the built-in [repr]. *)
Lemma _repr_not_list (v : pyval) :
  (forall l, v <> VList l) -> _repr v = py_repr v.
Proof. destruct v; intros H; try reflexivity. now elim (H l). Qed.








(** Elsewhere [coord] is rendered, or the names are the letters of
    [coor], which are no attributes. *)
Lemma repr_keeps_inner_coord (k : kind) :
  coord_is_last_slot k = false ->
  In "coord" (slots_but_last k)
  \/ slots_but_last k = ["c"; "o"; "o"; "r"].
Proof.
  destruct k; simpl; intros H; try discriminate;
    try (right; reflexivity); left; unfold slots_but_last; simpl; tauto.
Qed.

(** C5 fails on the code.  [__slots__[:-1]] leaves out the last slot,
    which is [coord] only where no annotation slot follows it: the text
    of a [Constant] has a [coord] field (and no [gen_location]). *)
Theorem Constant_repr_renders_coord :
  construct KConstant [VStr "int"; VStr "1"] []
    = Ok (Constant (VStr "int") (VStr "1") VNone (VStr "int") VNone)
  /\ slots_but_last KConstant = ["type"; "value"; "coord"; "rawtype"]
  /\ node_repr (Constant (VStr "int") (VStr "1") VNone (VStr "int") VNone)
     = Ok ("Constant(type='int'," ++ nl
           ++ "         value='1'," ++ nl
           ++ "         coord=None," ++ nl
           ++ "         rawtype='int')").
Proof. repeat split; reflexivity. Qed.

(** C6, as amended.  The text of a [Program] of two [GlobalDecl] built
    with an empty list: the elements are joined by comma, line break and
    space, an empty list is a bracket, a line break and a bracket, every
    continuation line is moved right by the field that holds it, and the
    [symtab] field follows. *)
Theorem Program_repr_text :
  construct KGlobalDecl [VList []] [] = Ok (GlobalDecl (VList []) VNone)
  /\ construct KProgram
       [VList [VNode (GlobalDecl (VList []) VNone);
               VNode (GlobalDecl (VList []) VNone)]] []
     = Ok (Program
             (VList [VNode (GlobalDecl (VList []) VNone);
                     VNode (GlobalDecl (VList []) VNone)]) VNone VNone)
  /\ node_repr
       (Program
          (VList [VNode (GlobalDecl (VList []) VNone);
                  VNode (GlobalDecl (VList []) VNone)]) VNone VNone)
     = Ok actual_Program_text.
Proof. repeat split; reflexivity. Qed.

(** C6 fails as stated: the text is not the one the specification
    quotes. *)
Lemma Program_repr_not_expected :
  node_repr
    (Program
       (VList [VNode (GlobalDecl (VList []) VNone);
               VNode (GlobalDecl (VList []) VNone)]) VNone VNone)
  <> Ok expected_Program_text.
Proof. intros H. vm_compute in H. discriminate H. Qed.

(** The rule for lists that the claim states does hold: elements joined
    by comma, line break and space, their own line breaks followed by
    one more space. *)
Lemma _repr_list (l : list pyval) :
  _repr (VList l)
  = (rs <- mapM (fun e => r <- _repr e ;; Ok (replace_nl (nl ++ " ") r)) l ;;
     Ok ("[" ++ String.concat ("," ++ nl ++ " ") rs ++ nl ++ "]")).
Proof. reflexivity. Qed.

End Representation.

(** ** Induction on values, and the recursion of [show] *)

Section ValueInduction.

Variable P : pyval -> Prop.
Variable Q : node -> Prop.
Hypothesis HNone : P VNone.
Hypothesis HInt : forall z, P (VInt z).
Hypothesis HStr : forall s, P (VStr s).
Hypothesis HList : forall l, Forall P l -> P (VList l).
Hypothesis HCoord : forall a b, P a -> P b -> P (Coord a b).
Hypothesis HNode : forall n, Q n -> P (VNode n).
Hypothesis HFields : forall n, Forall P (map snd (fields n)) -> Q n.

Lemma pyval_induction : forall v, P v.
Proof.
  fix IH 1. intros [ | z | s | l | a b | n].
  - exact HNone.
  - apply HInt.
  - apply HStr.
  - apply HList. induction l as [|x t IHl]; constructor; [apply IH | exact IHl].
  - apply HCoord; apply IH.
  - apply HNode, HFields. destruct n; simpl; repeat constructor; apply IH.
Qed.

Lemma node_induction : forall n, Q n.
Proof.
  intros n. apply HFields, Forall_forall. intros v _. apply pyval_induction.
Qed.

End ValueInduction.

Section ShowRecursion.

Lemma depth_node_unfold (n : node) :
  depth_node n = S (list_max (map depth_value (map snd (fields n)))).
Proof. destruct n; reflexivity. Qed.

Lemma list_max_In (l : list nat) (k : nat) : In k l -> k <= list_max l.
Proof.
  intros H. pose proof (proj1 (list_max_le l (list_max l)) (Nat.le_refl _)) as F.
  rewrite Forall_forall in F. now apply F.
Qed.

(** A field of a node is nested less deeply than the node. *)
Lemma depth_field (n : node) (f : pyval) :
  In f (map snd (fields n)) -> depth_value f < depth_node n.
Proof.
  intros H. rewrite depth_node_unfold.
  apply Nat.lt_succ_r, list_max_In, in_map, H.
Qed.

Ltac item_cases H :=
  repeat match type of H with
         | In _ (_ ++ _) => apply in_app_or in H as [H|H]
         end;
  match type of H with
  | In _ (yield_present ?a) =>
      unfold yield_present in H; destruct (is_none a); simpl in H;
      [contradiction | destruct H as [<-|[]]];
      eexists; split; [|left; reflexivity]; simpl; tauto
  | In _ (yielded (or_empty iter_value ?a)) =>
      unfold or_empty in H; destruct (truthy a); simpl in H;
      [exists a; split; [simpl; tauto | right; exact H] | contradiction]
  | _ => idtac
  end.

(** What a loop over a node receives is a field of the node, or what a
    loop over one of its fields receives. *)
Lemma iter_node_items (n : node) (x : pyval) :
  In x (yielded (iter_node n)) ->
  exists f, In f (map snd (fields n))
            /\ (x = f \/ In x (yielded (iter_value f))).
Proof.
  destruct n; cbn -[or_empty yield_present]; intros H;
    try contradiction; try (item_cases H; fail).
  destruct (yielded (or_empty iter_value decls)); simpl in H; contradiction.
Qed.

Lemma iter_depth (v : pyval) (x : pyval) :
  In x (yielded (iter_value v)) -> depth_value x <= depth_value v.
Proof.
  revert x.
  apply (pyval_induction
           (fun v => forall x, In x (yielded (iter_value v)) ->
                               depth_value x <= depth_value v)
           (fun n => forall x, In x (yielded (iter_node n)) ->
                               depth_value x < depth_node n)).
  - intros x [].
  - intros z x [].
  - intros s x H. simpl in H. apply in_map_iff in H as [c [<- _]].
    simpl. lia.
  - intros l _ x H. simpl in H |- *. now apply list_max_In, in_map.
  - intros a b _ _ x [].
  - intros n Hn x H. simpl in H |- *. now apply Nat.lt_le_incl, Hn.
  - intros n Hf x H. rewrite Forall_forall in Hf.
    apply iter_node_items in H as [f [Hin [->|H]]].
    + now apply depth_field.
    + apply Nat.le_lt_trans with (depth_value f);
        [now apply Hf | now apply depth_field].
Qed.

Lemma enumerate_In {A} (name nm : string) (c : A) (l : list A) (i : nat) :
  In (nm, c)
    (map (fun ic => (indexed name (fst ic), snd ic)) (enumerate_from i l)) ->
  In c l.
Proof.
  revert i. induction l as [|a t IH]; intros i; simpl; [tauto|].
  intros [H|H]; [left; now inversion H | right; now apply (IH (S i))].
Qed.

Lemma enumerate_from_In {A} (i k : nat) (c : A) (l : list A) :
  In (i, c) (enumerate_from k l) -> In c l.
Proof.
  revert k. induction l as [|a t IH]; intros k; simpl; [tauto|].
  intros [H|H]; [left; now inversion H | right; now apply (IH (S k))].
Qed.

Lemma append_each_In (name nm : string) (x c : pyval)
    (cs : list (string * pyval)) :
  append_each name x = Ok cs \/ append_each_present name x = Ok cs ->
  In (nm, c) cs -> In c (yielded (or_empty iter_value x)).
Proof.
  unfold append_each, append_each_present, consume.
  destruct (stopped (or_empty iter_value x)); simpl;
    intros [H|H]; try discriminate; injection H as <-; intros Hin.
  - now apply enumerate_In in Hin.
  - apply in_map_iff in Hin as [[i c'] [E Hin]]. simpl in E.
    injection E as _ ->. apply filter_In in Hin as [Hin _].
    now apply enumerate_from_In in Hin.
Qed.

Ltac child_cases H :=
  repeat match type of H with
         | In _ (_ ++ _) => apply in_app_or in H as [H|H]
         end;
  match type of H with
  | In _ (append_present _ ?a) =>
      unfold append_present in H; destruct (is_none a); simpl in H;
      [contradiction | destruct H as [H|[]]; injection H as _ <-];
      eexists; split; [|left; reflexivity]; simpl; tauto
  | _ => idtac
  end.

(** A child reported by [children()] is a field of the node, or an item
    of one of its fields. *)
Lemma children_items (n : node) (cs : list (string * pyval))
    (nm : string) (c : pyval) :
  children n = Ok cs -> In (nm, c) cs ->
  exists f, In f (map snd (fields n))
            /\ (c = f \/ In c (yielded (iter_value f))).
Proof.
  assert (Hseq : forall name x,
             append_each name x = Ok cs \/ append_each_present name x = Ok cs ->
             In (nm, c) cs -> In x (map snd (fields n)) ->
             exists f, In f (map snd (fields n))
                       /\ (c = f \/ In c (yielded (iter_value f)))).
  { intros name x Hx Hin Hf.
    pose proof (append_each_In name nm x c cs Hx Hin) as H.
    unfold or_empty in H. destruct (truthy x); [|contradiction].
    exists x. split; [exact Hf | right; exact H]. }
  destruct n; cbn -[append_each append_each_present append_present] in *;
    unfold tuple; intros Hc Hin;
    try (injection Hc as <-; try contradiction; child_cases Hin; fail);
    try (eapply Hseq; [left; exact Hc | exact Hin | simpl; tauto]; fail);
    try (eapply Hseq; [right; exact Hc | exact Hin | simpl; tauto]; fail).
  (* FuncDef *)
  destruct (append_each "param_decls" param_decls) as [rest|e] eqn:E;
    simpl in Hc; [|discriminate].
  injection Hc as <-.
  repeat rewrite app_assoc in Hin. apply in_app_or in Hin as [Hin|Hin].
  - repeat rewrite <- app_assoc in Hin. child_cases Hin.
  - pose proof (append_each_In "param_decls" nm param_decls c rest
                  (or_introl E) Hin) as H.
    unfold or_empty in H. destruct (truthy param_decls); [|contradiction].
    exists param_decls. split; [simpl; tauto | right; exact H].
Qed.

(** The children of a node are nested less deeply than the node. *)
Lemma children_depth (n : node) (cs : list (string * pyval))
    (nm : string) (c : pyval) :
  children n = Ok cs -> In (nm, c) cs -> depth_value c < depth_node n.
Proof.
  intros Hc Hin.
  destruct (children_items n cs nm c Hc Hin) as [f [Hf [->|H]]].
  - now apply depth_field.
  - apply Nat.le_lt_trans with (depth_value f);
      [now apply iter_depth | now apply depth_field].
Qed.

Lemma fold_left_ext_In {A B} (f g : A -> B -> A) (l : list B) (a : A) :
  (forall x b, In b l -> f x b = g x b) ->
  fold_left f l a = fold_left g l a.
Proof.
  revert a. induction l as [|b t IH]; intros a H; simpl; [reflexivity|].
  rewrite (H a b) by (left; reflexivity).
  apply IH. intros x b' Hb. apply H. now right.
Qed.

(** Any fuel beyond the depth of the node gives the same output. *)
Lemma show_fuel_enough (fuel1 fuel2 : nat) (n : node) (o : show_options)
    (offset : nat) (name : option string) :
  depth_node n <= fuel1 -> depth_node n <= fuel2 ->
  show_fuel fuel1 n o offset name = show_fuel fuel2 n o offset name.
Proof.
  revert fuel2 n offset name.
  induction fuel1 as [|f1 IH]; intros fuel2 n offset name H1 H2.
  - rewrite depth_node_unfold in H1. lia.
  - destruct fuel2 as [|f2]; [rewrite depth_node_unfold in H2; lia|].
    simpl. f_equal.
    destruct (children n) as [cs|e] eqn:Hc; [|reflexivity].
    apply fold_left_ext_In. intros out [nm c] Hin. simpl. f_equal.
    destruct c as [ | | | | | child]; try reflexivity.
    pose proof (children_depth n cs nm (VNode child) Hc Hin) as Hd.
    simpl in Hd. apply IH; lia.
Qed.

(** [show] writes the line of the node, then shows each child with its
    name, four columns further to the right. *)
Lemma show_unfold (self : node) (o : show_options) (offset : nat)
    (name : option string) :
  show self o offset name
  = show_line self o offset name
    >> match children self with
       | Raise e => abort e
       | Ok cs =>
           fold_left
             (fun out (nc : string * pyval) =>
                out >> match snd nc with
                       | VNode child =>
                           show child o (offset + 4) (Some (fst nc))
                       | _ => abort AttributeError
                       end)
             cs (write EmptyString)
       end.
Proof.
  unfold show at 1.
  destruct (depth_node self) as [|d] eqn:D;
    [rewrite depth_node_unfold in D; discriminate|].
  simpl. f_equal.
  destruct (children self) as [cs|e] eqn:Hc; [|reflexivity].
  apply fold_left_ext_In. intros out [nm c] Hin. simpl. f_equal.
  destruct c as [ | | | | | child]; try reflexivity.
  pose proof (children_depth self cs nm (VNode child) Hc Hin) as Hd.
  simpl in Hd. unfold show. apply show_fuel_enough; lia.
Qed.

End ShowRecursion.

(** ** The tree printer *)

Section Printer.

Ltac split_none :=
  repeat match goal with
         | |- context [is_none ?v] => destruct (is_none v)
         end.

(** With [attrnames] set, [attrstr] is made of the attributes that are
    not [None]. *)
Lemma attrstr_with_names (self : node) :
  attrstr self true
  = (texts <- mapM format_nv
                (filter (fun nv => negb (is_none (snd nv))) (attr_items self)) ;;
     Ok (String.concat ", " texts)).
Proof.
  destruct self; try reflexivity;
    unfold attrstr; cbn -[is_none format_nv String.concat];
    split_none; reflexivity.
Qed.

(** Without it, [attrstr] is made of every attribute. *)
Lemma attrstr_without_names (self : node) :
  attrstr self false
  = (texts <- mapM py_str (map snd (attr_items self)) ;;
     Ok (String.concat ", " texts)).
Proof. destruct self; reflexivity. Qed.

(** C8, as amended.  When attribute names are displayed, the summary
    lists [name=value] for the attributes that are not [None] and skips
    the others; when they are not displayed, it lists the value of every
    attribute, and an attribute that is [None] appears as the text
    [None]. *)
Theorem attrstr_skips_None_only_with_names (self : node) :
  attrstr self true
  = (texts <- mapM format_nv
                (filter (fun nv => negb (is_none (snd nv))) (attr_items self)) ;;
     Ok (String.concat ", " texts))
  /\ attrstr self false
     = (texts <- mapM py_str (map snd (attr_items self)) ;;
        Ok (String.concat ", " texts))
  /\ py_str VNone = Ok "None".
Proof.
  split; [apply attrstr_with_names|].
  split; [apply attrstr_without_names | reflexivity].
Qed.

(** C8 fails as stated: with attribute names off, the absent name of an
    [ID] is printed. *)
Lemma show_prints_None_attribute :
  construct KID [VNone] []
    = Ok (ID VNone VNone VNone VNone VNone VNone VNone)
  /\ attrstr (ID VNone VNone VNone VNone VNone VNone VNone) false = Ok "None"
  /\ show (ID VNone VNone VNone VNone VNone VNone VNone)
       (ShowOptions false false false) 0 None
     = write ("ID: None" ++ nl)
  /\ show (ID VNone VNone VNone VNone VNone VNone VNone)
       (ShowOptions true false false) 0 None
     = write ("ID: " ++ nl).
Proof. repeat split; reflexivity. Qed.

(** C4 fails on the code: traversal and printing do raise.  A loop over
    a [DeclList] that holds a declaration raises [NameError]; a loop
    over an [ID] raises [TypeError], its [__iter__] being a bare
    [return]; and the representation of a [Break] or an [EmptyStatement]
    raises [AttributeError], because [__slots__] is the string [coord]
    there and [__repr__] asks for the attributes [c], [o], [o], [r]. *)
Theorem traversal_and_printing_raise :
  iter_node
    (DeclList
       (VList [VNode (Decl (VStr "x") VNone VNone VNone)]) VNone)
    = fails NameError
  /\ iter_node (ID (VStr "x") VNone VNone VNone VNone VNone VNone)
     = fails TypeError
  /\ (construct KBreak [] [] = Ok (Break VNone)
      /\ node_repr (Break VNone) = Raise AttributeError)
  /\ (construct KEmptyStatement [] [] = Ok (EmptyStatement VNone)
      /\ node_repr (EmptyStatement VNone) = Raise AttributeError).
Proof. repeat split; reflexivity. Qed.

(** The scenario of the specification: a [For] loop around a [Print],
    shown with attribute names and without coordinates. *)
Example show_For :
  let i := VNode (ID (VStr "i") VNone VNone VNone VNone VNone VNone) in
  let const v := VNode (Constant (VStr "int") (VStr v) VNone (VStr "int") VNone) in
  let loop :=
    For (VNode (Assignment (VStr "=") i (const "0") VNone))
        (VNode (BinaryOp (VStr "<") i (const "10") VNone VNone VNone))
        (VNode (Assignment (VStr "=") i
                  (VNode (BinaryOp (VStr "+") i (const "1") VNone VNone VNone))
                  VNone))
        (VNode (Print (VList [i]) VNone))
        VNone VNone in
  show loop (ShowOptions true false false) 0 None
  = write
      ("For: " ++ nl
       ++ "    Assignment: op==" ++ nl
       ++ "        ID: name=i" ++ nl
       ++ "        Constant: type=int, value=0" ++ nl
       ++ "    BinaryOp: op=<" ++ nl
       ++ "        ID: name=i" ++ nl
       ++ "        Constant: type=int, value=10" ++ nl
       ++ "    Assignment: op==" ++ nl
       ++ "        ID: name=i" ++ nl
       ++ "        BinaryOp: op=+" ++ nl
       ++ "            ID: name=i" ++ nl
       ++ "            Constant: type=int, value=1" ++ nl
       ++ "    Print: " ++ nl
       ++ "        ID: name=i" ++ nl).
Proof. reflexivity. Qed.

End Printer.

(** * Further properties of the node classes *)

(** ** Children and iteration *)

Section ChildrenFacts.

Lemma is_none_true (v : pyval) : is_none v = true -> v = VNone.
Proof. destruct v; simpl; intros H; discriminate || reflexivity. Qed.

Lemma is_none_false (v : pyval) : is_none v = false -> v <> VNone.
Proof. destruct v; simpl; intros H; discriminate || (intros E; discriminate). Qed.

(** X1.  For every class but [DeclList], [Print] and the five classes
    whose [__iter__] is a bare [return], a loop over the node receives
    the values [children()] reports, in the same order, and ends with
    the exception of [children()] when that raises. *)
Theorem iteration_yields_children (n : node)
    (H : iterates_children (kind_of n) = true) :
  (forall cs, children n = Ok cs -> iter_node n = done (map snd cs))
  /\ (forall e, children n = Raise e -> stopped (iter_node n) = Some e).
Proof.
  pose proof (iter_matches_children n H) as E. split.
  - intros cs Hc. rewrite Hc in E. now apply consume_Ok.
  - intros e Hc. rewrite Hc in E. unfold consume in E. simpl in E.
    destruct (stopped (iter_node n)); now inversion E.
Qed.

Lemma iteration_yields_children_witness :
  iterates_children (kind_of (If (VInt 1) VNone (VInt 2) VNone)) = true
  /\ iter_node (If (VInt 1) VNone (VInt 2) VNone) = done [VInt 1; VInt 2].
Proof.
  assert (H : iterates_children (kind_of (If (VInt 1) VNone (VInt 2) VNone))
              = true) by reflexivity.
  split; [exact H|].
  exact (proj1 (iteration_yields_children _ H)
           [("cond", VInt 1); ("false", VInt 2)] eq_refl).
Defined.

(** X2.  A node that holds one sequence of children, and whose sequence
    is false ([None], the empty list, the empty string or zero), has no
    children and iterates over nothing; neither operation raises, not
    even for [DeclList] or for a zero, which is not iterable. *)
Theorem false_sequence_has_no_children (n : node) (x : pyval)
    (Hf : sequence_field n = Some x) (Hx : truthy x = false) :
  children n = Ok [] /\ iter_node n = done [].
Proof.
  destruct n; simpl in Hf; try discriminate; injection Hf as ->;
    unfold children, append_each, append_each_present; simpl;
    unfold or_empty; rewrite Hx; split; reflexivity.
Qed.

Lemma false_sequence_has_no_children_witness :
  sequence_field (DeclList (VInt 0) VNone) = Some (VInt 0)
  /\ truthy (VInt 0) = false
  /\ children (DeclList (VInt 0) VNone) = Ok []
  /\ iter_node (DeclList (VInt 0) VNone) = done [].
Proof.
  split; [reflexivity|]. split; [reflexivity|].
  exact (false_sequence_has_no_children (DeclList (VInt 0) VNone) (VInt 0)
           eq_refl eq_refl).
Defined.

Ltac present_cases :=
  repeat match goal with
         | |- context [append_present _ ?v] =>
             let E := fresh "E" in
             unfold append_present at 1; destruct (is_none v) eqn:E;
             [apply is_none_true in E | apply is_none_false in E]
         end.

(** X3.  For a class whose children are all single-valued fields,
    [children()] never raises; it reports exactly the child fields
    whose value is not [None], each under the name of the field and
    with the value of that attribute, and in the order of the
    declaration. *)
Theorem single_children_are_present_fields (n : node)
    (H : single_valued (kind_of n) = true) :
  exists cs,
    children n = Ok cs
    /\ subsequence (map fst cs) (map fst (child_fields (kind_of n))) = true
    /\ forall name v,
         In (name, v) cs
         <-> (In name (map fst (child_fields (kind_of n)))
              /\ getattr n name = Ok v /\ v <> VNone).
Proof.
  destruct n; try discriminate H; clear H;
    unfold children, tuple; eexists; (split; [reflexivity|]);
    present_cases; subst; (split; [reflexivity|]);
    intros nm w; simpl; split;
    try (intros Hin;
         repeat (destruct Hin as [Hin|Hin];
                 [injection Hin as <- <-;
                  split; [tauto | split; [reflexivity | assumption]] |]);
         contradiction);
    intros [Hin [Hg Hv]];
    repeat (destruct Hin as [<-|Hin];
            [unfold getattr in Hg; simpl in Hg; injection Hg as <-;
             try (now elim Hv); tauto |]);
    contradiction.
Qed.

Lemma single_children_are_present_fields_witness :
  single_valued (kind_of (If (VInt 1) (VInt 2) VNone VNone)) = true
  /\ exists cs,
       children (If (VInt 1) (VInt 2) VNone VNone) = Ok cs
       /\ subsequence (map fst cs)
            (map fst (child_fields (kind_of (If (VInt 1) (VInt 2) VNone VNone))))
          = true
       /\ forall name v,
            In (name, v) cs
            <-> (In name
                   (map fst
                      (child_fields (kind_of (If (VInt 1) (VInt 2) VNone VNone))))
                 /\ getattr (If (VInt 1) (VInt 2) VNone VNone) name = Ok v
                 /\ v <> VNone).
Proof.
  split; [reflexivity|].
  exact (single_children_are_present_fields
           (If (VInt 1) (VInt 2) VNone VNone) eq_refl).
Defined.

End ChildrenFacts.

Section SequenceFacts.

Lemma append_each_list (name : string) (l : list pyval) :
  append_each name (VList l)
  = Ok (map (fun ic => (indexed name (fst ic), snd ic)) (enumerate l)).
Proof. unfold append_each, or_empty. now destruct l. Qed.

Lemma append_each_present_list (name : string) (l : list pyval) :
  append_each_present name (VList l)
  = Ok (map (fun ic => (indexed name (fst ic), snd ic))
          (filter (fun ic => negb (is_none (snd ic))) (enumerate l))).
Proof. unfold append_each_present, or_empty. now destruct l. Qed.

Lemma enumerate_from_length {A} (k : nat) (l : list A) :
  length (enumerate_from k l) = length l.
Proof.
  revert k. induction l as [|a t IH]; intros k; simpl; [reflexivity|].
  now rewrite IH.
Qed.

Lemma enumerate_from_nth {A} (k i : nat) (l : list A) :
  nth_error (enumerate_from k l) i
  = option_map (fun x => (k + i, x)) (nth_error l i).
Proof.
  revert k i. induction l as [|a t IH]; intros k [|i]; simpl;
    try reflexivity.
  - now rewrite Nat.add_0_r.
  - rewrite IH. now rewrite Nat.add_succ_r.
Qed.

Lemma enumerate_from_In_iff {A} (k i : nat) (x : A) (l : list A) :
  In (i, x) (enumerate_from k l)
  <-> exists j, i = k + j /\ nth_error l j = Some x.
Proof.
  split.
  - intros H. apply In_nth_error in H as [j Hj].
    rewrite enumerate_from_nth in Hj.
    destruct (nth_error l j) as [y|] eqn:E; simpl in Hj; [|discriminate].
    injection Hj as <- <-. now exists j.
  - intros [j [-> Hj]]. apply nth_error_In with j.
    rewrite enumerate_from_nth, Hj. reflexivity.
Qed.

(** X4.  When the sequence field [f] of a node holds a list, however
    short, [children()] reports one pair per element, in the order of
    the list: element [i] under the name [f[i]].  [None] elements are
    reported like the others. *)
Theorem list_children_are_indexed (n : node) (f : string) (l : list pyval)
    (Hk : child_fields (kind_of n) = [(f, Sequence)])
    (Hg : getattr n f = Ok (VList l)) :
  exists cs,
    children n = Ok cs
    /\ length cs = length l
    /\ forall i x,
         nth_error l i = Some x ->
         nth_error cs i = Some (f ++ "[" ++ str_of_nat i ++ "]", x).
Proof.
  assert (Hl : forall name,
             length (map (fun ic : nat * pyval => (indexed name (fst ic), snd ic))
                       (enumerate l)) = length l
             /\ forall i x,
                  nth_error l i = Some x ->
                  nth_error
                    (map (fun ic : nat * pyval => (indexed name (fst ic), snd ic))
                       (enumerate l)) i
                  = Some (name ++ "[" ++ str_of_nat i ++ "]", x)).
  { intros name. split.
    - unfold enumerate. now rewrite length_map, enumerate_from_length.
    - intros i x Hi. unfold enumerate.
      rewrite nth_error_map, enumerate_from_nth, Hi. reflexivity. }
  destruct n; simpl in Hk; try discriminate Hk; injection Hk as <-;
    unfold getattr in Hg; simpl in Hg; injection Hg as ->;
    unfold children; rewrite append_each_list; eexists;
    (split; [reflexivity | apply Hl]).
Qed.

Lemma list_children_are_indexed_witness :
  child_fields (kind_of (Compound (VList [VNone; VInt 7]) (VStr "1:1")))
    = [("block_items", Sequence)]
  /\ getattr (Compound (VList [VNone; VInt 7]) (VStr "1:1")) "block_items"
     = Ok (VList [VNone; VInt 7])
  /\ exists cs,
       children (Compound (VList [VNone; VInt 7]) (VStr "1:1")) = Ok cs
       /\ length cs = 2
       /\ forall i x,
            nth_error [VNone; VInt 7] i = Some x ->
            nth_error cs i
            = Some ("block_items" ++ "[" ++ str_of_nat i ++ "]", x).
Proof.
  split; [reflexivity|]. split; [reflexivity|].
  exact (list_children_are_indexed
           (Compound (VList [VNone; VInt 7]) (VStr "1:1")) "block_items"
           [VNone; VInt 7] eq_refl eq_refl).
Defined.

Lemma numbered_present_values (name : string) (l : list pyval) (i : nat) :
  map snd (numbered true name i l) = filter (fun v => negb (is_none v)) l.
Proof.
  revert i. induction l as [|x t IH]; intros i; simpl; [reflexivity|].
  destruct x; simpl; now rewrite IH.
Qed.

(** X5.  [Print.children] on a list returns, in list order and once
    each, exactly the elements that are not [None], each under the
    index it has in the list: an element that is skipped does not
    shift the names of the elements after it. *)
Theorem Print_children_skip_None (l : list pyval) (coord : pyval) :
  children (Print (VList l) coord) = Ok (numbered true "expression" 0 l)
  /\ map snd (numbered true "expression" 0 l)
     = filter (fun v => negb (is_none v)) l
  /\ forall name v,
       In (name, v) (numbered true "expression" 0 l)
       <-> exists i, name = "expression[" ++ str_of_nat i ++ "]"
                     /\ nth_error l i = Some v /\ v <> VNone.
Proof.
  split; [apply append_each_present_numbered|].
  split; [apply numbered_present_values|].
  intros name v. rewrite <- enumerate_numbered_present, in_map_iff. split.
  - intros [[i x] [E Hin]]. simpl in E. injection E as <- <-.
    apply filter_In in Hin as [Hin Hx]. simpl in Hx.
    apply enumerate_from_In_iff in Hin as [j [-> Hj]].
    exists j. repeat split; [exact Hj|].
    apply is_none_false. now destruct (is_none x).
  - intros [i [-> [Hi Hv]]]. exists (i, v). split; [reflexivity|].
    apply filter_In. split.
    + apply enumerate_from_In_iff. now exists i.
    + simpl. destruct (is_none v) eqn:E; [|reflexivity].
      now apply is_none_true in E.
Qed.

End SequenceFacts.

(** ** Construction *)

Section ConstructionFacts.

Lemma assoc_drop_key (p q : string) (kw : kwargs) :
  p <> q -> assoc p (drop_key q kw) = assoc p kw.
Proof.
  intros Hpq. induction kw as [|[y a] t IH]; simpl; [reflexivity|].
  destruct (String.eqb q y) eqn:E; simpl.
  - apply String.eqb_eq in E. subst y.
    apply String.eqb_neq in Hpq. now rewrite Hpq.
  - now rewrite IH.
Qed.

(** What [bind_args] binds a parameter to: the positional argument at
    its place, else the keyword argument of its name, else its default. *)
Lemma bind_args_env (ps : params) :
  forall (args : list pyval) (kw : kwargs) (env : list (string * pyval)),
    NoDup (map fst ps) ->
    bind_args ps args kw = Ok env ->
    forall i p d,
      nth_error ps i = Some (p, d) ->
      exists v,
        assoc p env = Some v
        /\ match nth_error args i with
           | Some a => Some a
           | None => match assoc p kw with
                     | Some w => Some w
                     | None => d
                     end
           end = Some v.
Proof.
  induction ps as [|[p0 d0] ps' IH]; intros args kw env ND H i p d Hi.
  - destruct i; discriminate.
  - inversion ND as [|? ? Hnotin ND']; subst.
    assert (Hneq : forall j, nth_error ps' j = Some (p, d) -> p <> p0).
    { intros j Hj E. subst p0. apply Hnotin.
      apply nth_error_In in Hj. now apply (in_map fst) in Hj. }
    simpl in H. destruct args as [|a args'].
    + destruct (assoc p0 kw) as [w|] eqn:Ek.
      * destruct (bind_args ps' [] (drop_key p0 kw)) as [rest|] eqn:Eb;
          simpl in H; [|discriminate]. injection H as <-.
        destruct i as [|j]; simpl in Hi.
        -- injection Hi as <- <-. exists w. simpl.
           now rewrite String.eqb_refl, Ek.
        -- pose proof (Hneq j Hi) as Hp.
           destruct (IH [] _ _ ND' Eb j p d Hi) as [v [Hv Hm]].
           exists v. simpl. apply String.eqb_neq in Hp as Hp'.
           rewrite Hp'. split; [exact Hv|].
           destruct j; simpl in Hm; now rewrite assoc_drop_key in Hm.
      * destruct d0 as [d0|]; [|discriminate].
        destruct (bind_args ps' [] kw) as [rest|] eqn:Eb;
          simpl in H; [|discriminate]. injection H as <-.
        destruct i as [|j]; simpl in Hi.
        -- injection Hi as <- <-. exists d0. simpl.
           now rewrite String.eqb_refl, Ek.
        -- pose proof (Hneq j Hi) as Hp.
           destruct (IH [] _ _ ND' Eb j p d Hi) as [v [Hv Hm]].
           exists v. simpl. apply String.eqb_neq in Hp as Hp'.
           rewrite Hp'. split; [exact Hv|].
           destruct j; simpl in Hm; exact Hm.
    + destruct (assoc p0 kw); [discriminate|].
      destruct (bind_args ps' args' kw) as [rest|] eqn:Eb;
        simpl in H; [|discriminate]. injection H as <-.
      destruct i as [|j]; simpl in Hi.
      * injection Hi as <- <-. exists a. simpl.
        now rewrite String.eqb_refl.
      * pose proof (Hneq j Hi) as Hp.
        destruct (IH args' _ _ ND' Eb j p d Hi) as [v [Hv Hm]].
        exists v. simpl. apply String.eqb_neq in Hp as Hp'.
        rewrite Hp'. split; [exact Hv | exact Hm].
Qed.

Lemma bind_args_raises_TypeError (ps : params) :
  forall (args : list pyval) (kw : kwargs) (e : exn),
    bind_args ps args kw = Raise e -> e = TypeError.
Proof.
  induction ps as [|[p0 d0] ps' IH]; intros args kw e H; simpl in H.
  - destruct args; [destruct kw|]; now inversion H.
  - destruct args as [|a args'].
    + destruct (assoc p0 kw).
      * destruct (bind_args ps' [] (drop_key p0 kw)) eqn:Eb; simpl in H;
          [discriminate | injection H as <-; eapply IH; eassumption].
      * destruct d0; [|now inversion H].
        destruct (bind_args ps' [] kw) eqn:Eb; simpl in H;
          [discriminate | injection H as <-; eapply IH; eassumption].
    + destruct (assoc p0 kw); [now inversion H|].
      destruct (bind_args ps' args' kw) eqn:Eb; simpl in H;
        [discriminate | injection H as <-; eapply IH; eassumption].
Qed.

Lemma parameter_names_distinct (k : kind) :
  NoDup (map fst (init_params k)).
Proof.
  destruct k; simpl; repeat constructor; simpl; intuition discriminate.
Qed.

(** The body of [__init__] stores a parameter in the slot of its name. *)
Lemma init_body_stores (k : kind) (a : string -> pyval) (n : node) (p : string) :
  init_body k a = Ok n ->
  In p (map fst (init_params k)) ->
  stored_as_given k p = true ->
  getattr n p = Ok (a p).
Proof.
  intros Hn Hin Hs.
  destruct k; simpl in Hn;
    try (destruct (str_split (a "coord") colon); simpl in Hn;
         [|discriminate]);
    injection Hn as <-; simpl in Hin;
    repeat (destruct Hin as [<-|Hin]; [try discriminate Hs; reflexivity|]);
    contradiction.
Qed.

(** X6.  A successful constructor call stores every argument in the
    slot named like its parameter: the positional argument at the
    place of the parameter, else the keyword argument of that name,
    else the default.  The two parameters that are not stored as they
    come are [symtab] of [Program] and [coord] of [Compound]. *)
Theorem arguments_are_stored
    (k : kind) (args : list pyval) (kw : kwargs) (n : node)
    (i : nat) (p : string) (d : option pyval)
    (Hn : construct k args kw = Ok n)
    (Hi : nth_error (init_params k) i = Some (p, d))
    (Hs : stored_as_given k p = true) :
  exists v,
    getattr n p = Ok v
    /\ match nth_error args i with
       | Some a => Some a
       | None => match assoc p kw with
                 | Some w => Some w
                 | None => d
                 end
       end = Some v.
Proof.
  unfold construct in Hn.
  destruct (bind_args (init_params k) args kw) as [env|] eqn:Eb;
    simpl in Hn; [|discriminate].
  destruct (bind_args_env _ _ _ _ (parameter_names_distinct k) Eb i p d Hi)
    as [v [Hv Hm]].
  exists v. split; [|exact Hm].
  rewrite (init_body_stores k (local env) n p Hn); [|
    apply nth_error_In in Hi; now apply (in_map fst) in Hi | exact Hs].
  unfold local. now rewrite Hv.
Qed.

Lemma arguments_are_stored_witness :
  construct KDecl [VStr "x"; VInt 1] [("init", VInt 2)]
    = Ok (Decl (VStr "x") (VInt 1) (VInt 2) VNone)
  /\ nth_error (init_params KDecl) 2 = Some ("init", None)
  /\ stored_as_given KDecl "init" = true
  /\ exists v,
       getattr (Decl (VStr "x") (VInt 1) (VInt 2) VNone) "init" = Ok v
       /\ Some (VInt 2) = Some v.
Proof.
  split; [reflexivity|]. split; [reflexivity|]. split; [reflexivity|].
  exact (arguments_are_stored KDecl [VStr "x"; VInt 1] [("init", VInt 2)]
           (Decl (VStr "x") (VInt 1) (VInt 2) VNone) 2 "init" None
           eq_refl eq_refl eq_refl).
Defined.

(** X7.  After construction every slot that is not a parameter of
    [__init__] holds [None], with one exception: the [rawtype] slot of
    a [Constant] holds the value of its [type] slot. *)
Theorem new_slots_start_None
    (k : kind) (args : list pyval) (kw : kwargs) (n : node) (s : string)
    (Hn : construct k args kw = Ok n)
    (Hs : In s (slot_names k))
    (Hp : ~ In s (map fst (init_params k))) :
  (s <> "rawtype" -> getattr n s = Ok VNone)
  /\ (s = "rawtype" -> getattr n s = getattr n "type").
Proof.
  unfold construct in Hn.
  destruct (bind_args (init_params k) args kw) as [env|]; simpl in Hn;
    [|discriminate].
  destruct k; simpl in Hn;
    try (destruct (str_split (local env "coord") colon); simpl in Hn;
         [|discriminate]);
    injection Hn as <-; unfold slot_names in Hs; simpl in Hs, Hp;
    repeat (destruct Hs as [<-|Hs];
            [try (exfalso; apply Hp; tauto);
             split; intros E; try congruence; reflexivity |]);
    contradiction.
Qed.

Lemma new_slots_start_None_witness :
  construct KFor [VNone; VNone; VNone; VNone] []
    = Ok (For VNone VNone VNone VNone VNone VNone)
  /\ In "label_exit" (slot_names KFor)
  /\ ~ In "label_exit" (map fst (init_params KFor))
  /\ getattr (For VNone VNone VNone VNone VNone VNone) "label_exit" = Ok VNone.
Proof.
  assert (Hs : In "label_exit" (slot_names KFor)) by (simpl; tauto).
  assert (Hp : ~ In "label_exit" (map fst (init_params KFor)))
    by (simpl; intuition discriminate).
  split; [reflexivity|]. split; [exact Hs|]. split; [exact Hp|].
  apply (new_slots_start_None KFor [VNone; VNone; VNone; VNone] []
           (For VNone VNone VNone VNone VNone VNone) "label_exit"
           eq_refl Hs Hp).
  discriminate.
Defined.

(** X8.  A constructor call fails in two ways only: with [TypeError],
    when the arguments do not fit the parameters, and, for [Compound]
    alone, with [AttributeError], when the coordinate is not a string. *)
Theorem construct_failures
    (k : kind) (args : list pyval) (kw : kwargs) (e : exn)
    (H : construct k args kw = Raise e) :
  e = TypeError \/ (k = KCompound /\ e = AttributeError).
Proof.
  unfold construct in H.
  destruct (bind_args (init_params k) args kw) as [env|e'] eqn:Eb;
    simpl in H.
  - right. destruct k; simpl in H; try discriminate.
    unfold str_split in H.
    destruct (local env "coord"); simpl in H; try discriminate;
      now inversion H.
  - left. injection H as <-. eapply bind_args_raises_TypeError, Eb.
Qed.

Lemma construct_failures_witness :
  construct KIf [VNone; VNone] [("else", VNone)] = Raise TypeError
  /\ (TypeError = TypeError \/ (KIf = KCompound /\ TypeError = AttributeError)).
Proof.
  split; [reflexivity|].
  exact (construct_failures KIf [VNone; VNone] [("else", VNone)] TypeError
           eq_refl).
Defined.

(** X9.  A call with positional arguments only succeeds exactly when
    their number lies between the number of parameters without default
    and the number of parameters ([Compound] apart, which also needs a
    string as coordinate). *)
Theorem positional_call_arity (k : kind) (args : list pyval)
    (Hk : k <> KCompound) :
  (exists n, construct k args [] = Ok n)
  <-> required_count k <= length args <= length (init_params k).
Proof.
  destruct k; try congruence; clear Hk;
    unfold required_count; simpl;
    do 6 (try destruct args as [|? args]);
    simpl; split;
    try (intros _; lia);
    try (intros [n Hn]; discriminate Hn);
    try (intros _; eexists; reflexivity);
    try (intros H; lia).
Qed.

Lemma positional_call_arity_witness :
  KWhile <> KCompound
  /\ ((exists n, construct KWhile [VNone; VNone; VNone] [] = Ok n)
      <-> required_count KWhile <= 3 <= length (init_params KWhile)).
Proof.
  assert (Hk : KWhile <> KCompound) by discriminate.
  split; [exact Hk|].
  exact (positional_call_arity KWhile [VNone; VNone; VNone] Hk).
Defined.

(** X10.  The coordinate of a constructed [Compound] is a string of the
    form [line:1] whose [line] part holds no colon, and it is a fixed
    point of the constructor: building a [Compound] from the stored
    fields gives the same node. *)
Theorem Compound_coord_is_normal
    (args : list pyval) (kw : kwargs) (n : node)
    (H : construct KCompound args kw = Ok n) :
  exists items line,
    n = Compound items (VStr (line ++ ":1"))
    /\ has_char colon line = false
    /\ construct KCompound [items; VStr (line ++ ":1")] [] = Ok n.
Proof.
  unfold construct in H.
  destruct (bind_args (init_params KCompound) args kw) as [env|];
    simpl in H; [|discriminate].
  unfold str_split in H.
  destruct (local env "coord") as [ | | s | | | ]; simpl in H;
    try discriminate.
  injection H as <-.
  exists (local env "block_items"), (hd EmptyString (split_on colon s)).
  split; [reflexivity|].
  split; [apply split_on_hd_free|].
  unfold construct. simpl.
  change (hd EmptyString (split_on colon s) ++ ":1")
    with (hd EmptyString (split_on colon s) ++ String colon "1").
  rewrite split_on_prefix by apply split_on_hd_free.
  reflexivity.
Qed.

Lemma Compound_coord_is_normal_witness :
  construct KCompound [VList []; VStr "3:9:2"] []
    = Ok (Compound (VList []) (VStr "3:1"))
  /\ exists items line,
       Compound (VList []) (VStr "3:1") = Compound items (VStr (line ++ ":1"))
       /\ has_char colon line = false
       /\ construct KCompound [items; VStr (line ++ ":1")] []
          = Ok (Compound (VList []) (VStr "3:1")).
Proof.
  split; [reflexivity|].
  exact (Compound_coord_is_normal [VList []; VStr "3:9:2"] []
           (Compound (VList []) (VStr "3:1")) eq_refl).
Defined.

End ConstructionFacts.

(** ** Representation *)

Section RepresentationFacts.





End RepresentationFacts.

(** ** The tree printer *)

Section PrinterFacts.

Lemma written_and_then (a b : output) :
  exists rest, written (a >> b) = written a ++ rest.
Proof.
  unfold and_then. destruct (raised a).
  - exists EmptyString. now rewrite append_nil_r.
  - now eexists.
Qed.

(** X13.  Whatever the options and whether or not it raises later,
    [show] begins its output with [offset] spaces followed by the name
    of the class of the node. *)
Theorem show_starts_with_offset_and_class
    (self : node) (o : show_options) (offset : nat) (name : option string) :
  exists rest,
    written (show self o offset name)
    = spaces offset ++ class_name (kind_of self) ++ rest.
Proof.
  rewrite show_unfold. unfold show_line.
  match goal with
  | |- context [write ?h >> ?a >> ?b >> ?c >> ?d] =>
      destruct (written_and_then (write h >> a >> b >> c) d) as [r1 ->];
      destruct (written_and_then (write h >> a >> b) c) as [r2 ->];
      destruct (written_and_then (write h >> a) b) as [r3 ->];
      destruct (written_and_then (write h) a) as [r4 ->]
  end.
  simpl. destruct (nodenames o); [destruct name|];
    rewrite !append_assoc; now eexists.
Qed.

End PrinterFacts.

(** ** Well-formed trees *)

Section TreeFacts.

Lemma opt_child (name : string) (x : pyval) :
  opt_of is_tree x = true ->
  forall nm v, In (nm, v) (append_present name x) ->
               exists c, v = VNode c /\ tree_ok c = true.
Proof.
  intros H nm v Hin. destruct x; simpl in H, Hin; try discriminate;
    try contradiction.
  destruct Hin as [E|[]]. injection E as _ <-. now eexists.
Qed.

Lemma is_tree_node (v : pyval) :
  is_tree v = true -> exists c, v = VNode c /\ tree_ok c = true.
Proof. destruct v; simpl; intros H; try discriminate. now eexists. Qed.

Lemma list_children (name : string) (x : pyval) :
  list_of is_tree x = true ->
  exists cs,
    append_each name x = Ok cs
    /\ forall nm v, In (nm, v) cs ->
                    exists c, v = VNode c /\ tree_ok c = true.
Proof.
  intros H. destruct x as [ | | | l | | ]; simpl in H; try discriminate.
  - exists []. split; [reflexivity | intros nm v []].
  - rewrite append_each_list. eexists. split; [reflexivity|].
    intros nm v Hin. apply enumerate_In in Hin.
    rewrite forallb_forall in H. now apply is_tree_node, H.
Qed.

Lemma list_children_opt (name : string) (x : pyval) :
  list_of (opt_of is_tree) x = true ->
  exists cs,
    append_each_present name x = Ok cs
    /\ forall nm v, In (nm, v) cs ->
                    exists c, v = VNode c /\ tree_ok c = true.
Proof.
  intros H. destruct x as [ | | | l | | ]; simpl in H; try discriminate.
  - exists []. split; [reflexivity | intros nm v []].
  - rewrite append_each_present_list. eexists. split; [reflexivity|].
    intros nm v Hin. apply in_map_iff in Hin as [[i w] [E Hin]].
    simpl in E. injection E as _ ->.
    apply filter_In in Hin as [Hin Hw]. simpl in Hw.
    apply enumerate_from_In in Hin.
    rewrite forallb_forall in H. specialize (H v Hin).
    destruct v; simpl in H, Hw; try discriminate. now eexists.
Qed.

Ltac split_bools H :=
  repeat match type of H with
         | (_ && _)%bool = true =>
             let H1 := fresh "B" in
             apply andb_true_iff in H as [H1 H]
         end.

Ltac tree_children :=
  match goal with
  | |- exists cs, Ok ?l = Ok cs /\ _ =>
      exists l; split; [reflexivity|];
      let nm := fresh "nm" in let w := fresh "w" in let Hin := fresh "Hin" in
      intros nm w Hin;
      repeat (apply in_app_or in Hin as [Hin|Hin];
              [eapply opt_child; [|exact Hin]; assumption|]);
      first [eapply opt_child; [|exact Hin]; assumption | contradiction]
  | B : list_of is_tree ?x = true |- exists cs, append_each ?f ?x = Ok cs /\ _ =>
      exact (list_children f x B)
  | B : list_of (opt_of is_tree) ?x = true
    |- exists cs, append_each_present ?f ?x = Ok cs /\ _ =>
      exact (list_children_opt f x B)
  end.

Lemma tree_children (n : node) :
  tree_ok n = true ->
  exists cs,
    children n = Ok cs
    /\ forall name v, In (name, v) cs ->
                      exists c, v = VNode c /\ tree_ok c = true.
Proof.
  intros H.
  destruct n; cbn in H; split_bools H; rewrite ?andb_true_r in *;
    unfold children, tuple; try tree_children.
  (* FuncDef *)
  destruct (list_children "param_decls" param_decls) as [rest [-> Hr]];
    [assumption|].
  simpl. eexists. split; [reflexivity|].
  intros nm w Hin.
  repeat (apply in_app_or in Hin as [Hin|Hin];
          [eapply opt_child; [|exact Hin]; assumption|]).
  eapply Hr, Hin.
Qed.

Lemma list_of_is_list (t : pyval -> bool) (v : pyval) :
  list_of t v = true -> list_or_None v = true.
Proof. destruct v; simpl; intros H; discriminate || reflexivity. Qed.

Lemma tree_sequences_are_lists (n : node) :
  tree_ok n = true -> sequences_are_lists n = true.
Proof.
  intros H.
  destruct n; cbn in H; split_bools H; rewrite ?andb_true_r in *;
    try reflexivity; cbn; rewrite ?andb_true_r;
    eapply list_of_is_list; eassumption.
Qed.

(** X14.  On a well-formed tree [children()] does not raise; it
    returns the pairs of the present single children and of the
    elements of the sequence field, and every child it reports is a
    node, itself a well-formed tree: each child has a [show] and a
    [children] method of its own. *)
Theorem children_of_trees_are_trees (n : node) (H : tree_ok n = true) :
  children n
    = Ok (pairs_in_order n (singles_first (child_fields (kind_of n))))
  /\ forall name v,
       In (name, v)
         (pairs_in_order n (singles_first (child_fields (kind_of n)))) ->
       exists c, v = VNode c /\ tree_ok c = true.
Proof.
  pose proof (children_pairs n (tree_sequences_are_lists n H)) as E.
  split; [exact E|].
  destruct (tree_children n H) as [cs [Hc Hcs]].
  rewrite E in Hc. injection Hc as <-. exact Hcs.
Qed.

Lemma children_of_trees_are_trees_witness :
  tree_ok
    (While (VNode (ID (VStr "i") (VStr "2:7") VNone VNone VNone VNone VNone))
       (VNode
          (Compound
             (VList
                [VNode
                   (Print
                      (VList
                         [VNone;
                          VNode (Constant (VStr "int") (VStr "1")
                                   (Coord (VInt 3) (VInt 9)) (VStr "int") VNone)])
                      VNone)])
             (VStr "2:1")))
       (VStr "2:1") VNone)
  = true
  /\ children
       (While
          (VNode (ID (VStr "i") (VStr "2:7") VNone VNone VNone VNone VNone))
          (VNode
             (Compound
                (VList
                   [VNode
                      (Print
                         (VList
                            [VNone;
                             VNode (Constant (VStr "int") (VStr "1")
                                      (Coord (VInt 3) (VInt 9))
                                      (VStr "int") VNone)])
                         VNone)])
                (VStr "2:1")))
          (VStr "2:1") VNone)
     = Ok [("cond",
            VNode (ID (VStr "i") (VStr "2:7") VNone VNone VNone VNone VNone));
           ("statement",
            VNode
              (Compound
                 (VList
                    [VNode
                       (Print
                          (VList
                             [VNone;
                              VNode (Constant (VStr "int") (VStr "1")
                                       (Coord (VInt 3) (VInt 9))
                                       (VStr "int") VNone)])
                          VNone)])
                 (VStr "2:1")))].
Proof.
  split; [reflexivity|].
  apply children_of_trees_are_trees. reflexivity.
Defined.

End TreeFacts.
